(** * Blog controllers: slug resolution, cursor pagination, ownership guard

    A shallow embedding of [server2/src/controllers/blogsController.ts].
    The Mongo collection behind [BlogModel] is a list of documents in
    insertion order together with the counter that hands out fresh [_id]s;
    every handler is a function from the request (and the wall clock, for the
    handlers that call [new Date()]) and the store to a response and the
    next store. *)

From Stdlib Require Import List String Ascii ZArith Lia Bool Arith PeanoNat.
From Stdlib Require Import Decimal DecimalString DecimalNat.
From Stdlib Require Import Permutation Sorted.
Import ListNotations.
Open Scope string_scope.

(** ** JavaScript values as the handlers see them *)

(** A possibly absent string field ([undefined] is [None]).  JavaScript
    truthiness of such a value: present and not the empty string. *)
Definition truthy (v : option string) : bool :=
  match v with
  | Some s => negb (s =? "")
  | None => false
  end.

(** Template-literal rendering of a number: [`${n}`]. *)
Definition decimal (n : nat) : string :=
  NilEmpty.string_of_uint (Nat.to_uint n).

(** The raw [isPublished] of a request body.  [req.body] is not validated:
    the handlers test the JavaScript truthiness of the raw value, while the
    document keeps what the Boolean path of the schema makes of it.  These
    are the values that path accepts: null, the two booleans, the numbers 1
    and 0 and six strings.  Any other value (another number or string, an
    array, an object) makes [save()] reject the document, and the handler
    answers 500 through its [catch] without writing. *)
Inductive FlagWord := WordTrue | WordFalse | WordOne | WordZero | WordYes | WordNo.

Inductive RawFlag :=
| FlagNull
| FlagBool (b : bool)
| FlagNumber (one : bool)
| FlagString (w : FlagWord).

(** The text of a string flag: ["true"], ["false"], ["1"], ["0"], ["yes"],
    ["no"]. *)
Definition wordText (w : FlagWord) : string :=
  match w with
  | WordTrue => "true"
  | WordFalse => "false"
  | WordOne => "1"
  | WordZero => "0"
  | WordYes => "yes"
  | WordNo => "no"
  end.

(** JavaScript truthiness of a raw flag, as [!isPublished] and
    [isPublished ? ... : ...] see it: null, [false] and [0] are falsy, and
    every non-empty string is truthy, ["false"] and ["0"] included. *)
Definition flagTruthy (v : RawFlag) : bool :=
  match v with
  | FlagNull => false
  | FlagBool b => b
  | FlagNumber one => one
  | FlagString w => negb (wordText w =? "")
  end.

(** Modelled from the spec: the schema ([models/blog.schema]) is missing; the
    data model declares [isPublished] a boolean, and this is the cast of a
    Mongoose Boolean path: [true], ["true"], [1], ["1"] and ["yes"] are
    stored as true, [false], ["false"], [0], ["0"] and ["no"] as false, and
    null stays null ([None]). *)
Definition castBoolean (v : RawFlag) : option bool :=
  match v with
  | FlagNull => None
  | FlagBool b => Some b
  | FlagNumber one => Some one
  | FlagString WordTrue | FlagString WordOne | FlagString WordYes => Some true
  | FlagString WordFalse | FlagString WordZero | FlagString WordNo => Some false
  end.

(** ** Documents *)

Record Tag := mkTag { name : string; tag_slug : string }.

(** A stored blog document.  Dates are milliseconds since the epoch;
    [publishedAt] and the stored [isPublished] flag are nullable.  The schema ([models/blog.schema]) lies outside this
    development: the field list is the one the controller reads and writes,
    and [createdAt]/[updatedAt] are the creation timestamps of the data model. *)
Record Blog := mkBlog {
  _id : nat;
  title : string;
  content : string;
  imageUrl : option string;
  slug : string;
  author : string;
  tags : list Tag;
  isPublished : option bool;
  isDraft : bool;
  publishedAt : option Z;
  createdAt : Z;
  updatedAt : Z
}.

(** The list-view projection [.select("title author publishedAt slug")]. *)
Record BlogItem := mkItem {
  item_id : nat;
  item_title : string;
  item_author : string;
  item_publishedAt : option Z;
  item_slug : string
}.

Definition select (b : Blog) : BlogItem :=
  mkItem (_id b) (title b) (author b) (publishedAt b) (slug b).

Record Store := mkStore { docs : list Blog; nextId : nat }.

Definition emptyStore : Store := mkStore [] 0.

(** ** Requests and responses *)

(** [req.body] of the create and update handlers; [None] is a field that
    is not sent ([undefined]). *)
Record Body := mkBody {
  body_title : option string;
  body_content : option string;
  body_imageUrl : option string;
  body_tags : option (list string);
  body_isPublished : option RawFlag
}.

(** The destructuring default [isPublished = true] of both handlers: only a
    field that is not sent is replaced by [true]. *)
Definition requestFlag (body : Body) : RawFlag :=
  match body_isPublished body with
  | Some v => v
  | None => FlagBool true
  end.

Inductive Payload :=
| Message
| OneBlog (blog : Blog)
| Page (blogs : list BlogItem) (nextCursor : option Z)
| Blogs (blogs : list BlogItem).

Record Response := mkResponse { status : nat; payload : Payload }.

(** ** The collection operations the handlers call *)

(** [BlogModel.findOne({ slug })]: the first document with that slug. *)
Definition findOne (s : string) (ds : list Blog) : option Blog :=
  find (fun b => slug b =? s) ds.

(** Order on nullable dates used by [.sort({ publishedAt: -1 })]: null sorts
    below every date. *)
Definition dateLeb (x y : option Z) : bool :=
  match x, y with
  | None, _ => true
  | Some _, None => false
  | Some a, Some b => (a <=? b)%Z
  end.

Fixpoint insertDesc (b : Blog) (ds : list Blog) : list Blog :=
  match ds with
  | [] => [b]
  | d :: ds' =>
      if dateLeb (publishedAt d) (publishedAt b) then b :: d :: ds'
      else d :: insertDesc b ds'
  end.

(** [.sort({ publishedAt: -1 })], descending; documents with equal dates
    keep their collection order. *)
Fixpoint sortDesc (ds : list Blog) : list Blog :=
  match ds with
  | [] => []
  | d :: ds' => insertDesc d (sortDesc ds')
  end.

(** [.limit(n)] of the driver: zero means no limit, a negative value counts
    as its absolute value. *)
Definition mongoLimit {A : Type} (n : Z) (l : list A) : list A :=
  if (n =? 0)%Z then l else firstn (Z.abs_nat n) l.

(** [save()] of a loaded document: the stored document with the same [_id]
    is replaced in place. *)
Definition save (b : Blog) (ds : list Blog) : list Blog :=
  map (fun d => if _id d =? _id b then b else d)%nat ds.

(** [BlogModel.deleteOne({ _id })]: the first match is removed. *)
Fixpoint deleteOne (i : nat) (ds : list Blog) : list Blog :=
  match ds with
  | [] => []
  | d :: ds' => if (_id d =? i)%nat then ds' else d :: deleteOne i ds'
  end.

(** [blogs.slice(0, -1)]. *)
Definition dropLast {A : Type} (l : list A) : list A := removelast l.

(** [l[l.length - 1]], [undefined] on the empty array. *)
Fixpoint lastItem {A : Type} (l : list A) : option A :=
  match l with
  | [] => None
  | [x] => Some x
  | _ :: l' => lastItem l'
  end.

(** ** The handlers *)

Section Controllers.

(** [helpers/generateSlug] is imported by the controller; its source lies
    outside this development, and the handlers are parameterised by it. *)
Variable generateSlug : string -> string.

(** The probing loop of [postBlog]:
    [while (await BlogModel.findOne({ slug })) slug = `${baseSlug}-${slugCounter++}`].
    [fuel] bounds the number of probes; [None] is running out of it. *)
Fixpoint slugLoop (fuel : nat) (ds : list Blog) (baseSlug slug0 : string)
         (slugCounter : nat) : option string :=
  match fuel with
  | O => None
  | S fuel' =>
      match findOne slug0 ds with
      | Some _ =>
          slugLoop fuel' ds baseSlug (baseSlug ++ "-" ++ decimal slugCounter)
                   (S slugCounter)
      | None => Some slug0
      end
  end.

(** [let slug = baseSlug; let slugCounter = 1; while ...].  One probe more
    than there are documents always suffices (section [SlugResolution]), so
    the [None] result, and with it the [internalError] branch of [postBlog]
    below, is never taken. *)
Definition resolveSlug (ds : list Blog) (baseSlug : string) : option string :=
  slugLoop (S (List.length ds)) ds baseSlug baseSlug 1.

Definition formatTags (ts : list string) : list Tag :=
  map (fun n => mkTag n (generateSlug n)) ts.

Definition internalError : Response := mkResponse 500 Message.

(** [postBlog]; [now] is the value of [new Date()], [user] is
    [req.user?.id].  The document keeps the cast of the raw [isPublished],
    while [isDraft: !isPublished] and [publishedAt: isPublished ? new Date()
    : null] are computed from the truthiness of the raw value. *)
Definition postBlog (now : Z) (user : option string) (body : Body)
           (st : Store) : Response * Store :=
  let tags0 := match body_tags body with Some ts => ts | None => [] end in
  let isPublished0 := requestFlag body in
  match body_title body, body_content body with
  | Some title0, Some content0 =>
      if (title0 =? "") || (content0 =? "") then (mkResponse 400 Message, st)
      else if negb (truthy user) then (mkResponse 401 Message, st)
      else
        match user, resolveSlug (docs st) (generateSlug title0) with
        | Some authorId, Some slug0 =>
            let newBlog :=
              mkBlog (nextId st) title0 content0 (body_imageUrl body) slug0
                     authorId (formatTags tags0) (castBoolean isPublished0)
                     (negb (flagTruthy isPublished0))
                     (if flagTruthy isPublished0 then Some now else None)
                     now now in
            (mkResponse 201 (OneBlog newBlog),
             mkStore (docs st ++ [newBlog]) (S (nextId st)))
        | _, _ => (internalError, st)
        end
  | _, _ => (mkResponse 400 Message, st)
  end.

(** [parseInt(req.query.limit) || 10]; the argument is the result of
    [parseInt], [None] for [NaN]. *)
Definition limitOf (parsed : option Z) : Z :=
  match parsed with
  | Some n => if (n =? 0)%Z then 10%Z else n
  | None => 10%Z
  end.

(** The query of [getAllBlogs]: [{}] without a cursor,
    [{ publishedAt: { $lt: new Date(cursor) } }] with one.  A document whose
    [publishedAt] is null never satisfies [$lt]. *)
Definition cursorQuery (cursor : option Z) (b : Blog) : bool :=
  match cursor with
  | None => true
  | Some c =>
      match publishedAt b with
      | Some t => (t <? c)%Z
      | None => false
      end
  end.

(** [BlogModel.find(query).sort({ publishedAt: -1 }).limit(limit + 1)
    .select(...).lean()]. *)
Definition fetchPage (limit : Z) (cursor : option Z) (ds : list Blog)
  : list BlogItem :=
  map select (mongoLimit (limit + 1) (sortDesc (filter (cursorQuery cursor) ds))).

(** [getAllBlogs]; [parsedLimit] is [parseInt(req.query.limit)], [cursor]
    the decoded date of a non-empty [req.query.cursor]. *)
Definition getAllBlogs (parsedLimit : option Z) (cursor : option Z)
           (st : Store) : Response :=
  let limit := limitOf parsedLimit in
  let blogs := fetchPage limit cursor (docs st) in
  let hasNextPage := (Z.of_nat (List.length blogs) >? limit)%Z in
  let paginatedBlogs := if hasNextPage then dropLast blogs else blogs in
  if hasNextPage then
    match lastItem paginatedBlogs with
    | Some l => mkResponse 200 (Page paginatedBlogs (item_publishedAt l))
    | None => internalError
    end
  else mkResponse 200 (Page paginatedBlogs None).

(** [allBlogsOfUser]. *)
Definition allBlogsOfUser (user : option string) (st : Store) : Response :=
  match user with
  | Some authorId =>
      if authorId =? "" then mkResponse 401 Message
      else
        let blogs :=
          map select
              (sortDesc (filter (fun b => author b =? authorId) (docs st))) in
        if (List.length blogs =? 0)%nat then mkResponse 404 Message
        else mkResponse 200 (Blogs blogs)
  | None => mkResponse 401 Message
  end.

(** The field assignments of [updateBlogController] on the loaded
    document: [existingBlog.isPublished = isPublished] keeps the cast of the
    raw value, [existingBlog.isDraft = !isPublished] its JavaScript
    negation. *)
Definition applyPatch (now : Z) (body : Body) (existingBlog : Blog) : Blog :=
  let tags0 := match body_tags body with Some ts => ts | None => [] end in
  let isPublished0 := requestFlag body in
  mkBlog (_id existingBlog)
         (match body_title body with
          | Some t => if t =? "" then title existingBlog else t
          | None => title existingBlog
          end)
         (match body_content body with
          | Some c => if c =? "" then content existingBlog else c
          | None => content existingBlog
          end)
         (match body_imageUrl body with
          | Some u => if u =? "" then imageUrl existingBlog else Some u
          | None => imageUrl existingBlog
          end)
         (slug existingBlog)
         (author existingBlog)
         (if (0 <? List.length tags0)%nat then formatTags tags0
          else tags existingBlog)
         (castBoolean isPublished0)
         (negb (flagTruthy isPublished0))
         (publishedAt existingBlog)
         (createdAt existingBlog)
         now.

(** [updateBlogController]; [slugParam] is [req.params.slug]. *)
Definition updateBlogController (now : Z) (slugParam : string)
           (user : option string) (body : Body) (st : Store)
  : Response * Store :=
  match user with
  | Some authorId =>
      if (slugParam =? "") || (authorId =? "") then (mkResponse 400 Message, st)
      else
        match findOne slugParam (docs st) with
        | None => (mkResponse 404 Message, st)
        | Some existingBlog =>
            if negb (author existingBlog =? authorId)
            then (mkResponse 403 Message, st)
            else
              let updated := applyPatch now body existingBlog in
              (mkResponse 200 (OneBlog updated),
               mkStore (save updated (docs st)) (nextId st))
        end
  | None => (mkResponse 400 Message, st)
  end.

(** [deleteBlogController]. *)
Definition deleteBlogController (slugParam : string) (user : option string)
           (st : Store) : Response * Store :=
  match user with
  | Some authorId =>
      if (slugParam =? "") || (authorId =? "") then (mkResponse 400 Message, st)
      else
        match findOne slugParam (docs st) with
        | None => (mkResponse 404 Message, st)
        | Some blog =>
            if negb (author blog =? authorId)
            then (mkResponse 403 Message, st)
            else
              (mkResponse 200 Message,
               mkStore (deleteOne (_id blog) (docs st)) (nextId st))
        end
  | None => (mkResponse 400 Message, st)
  end.

(** ** Reachable stores *)

(** One state-changing request. *)
Inductive step : Store -> Store -> Prop :=
| step_post now user body st :
    step st (snd (postBlog now user body st))
| step_update now slugParam user body st :
    step st (snd (updateBlogController now slugParam user body st))
| step_delete slugParam user st :
    step st (snd (deleteBlogController slugParam user st)).

Inductive steps : Store -> Store -> Prop :=
| steps_refl st : steps st st
| steps_next st1 st2 st3 : steps st1 st2 -> step st2 st3 -> steps st1 st3.

Definition reachable (st : Store) : Prop := steps emptyStore st.

End Controllers.

(** ** The slug helper, for running the handlers on concrete requests *)

Definition lowerAscii (c : ascii) : ascii :=
  let n := nat_of_ascii c in
  if ((65 <=? n) && (n <=? 90))%nat then ascii_of_nat (n + 32) else c.

Definition isAlnum (c : ascii) : bool :=
  let n := nat_of_ascii c in
  (((48 <=? n) && (n <=? 57)) || ((97 <=? n) && (n <=? 122)))%nat.

(** [sep] records a pending run of non-alphanumeric characters, [started]
    that something was already emitted: a separator is written only between
    two alphanumeric stretches. *)
Fixpoint slugify (sep started : bool) (s : string) : string :=
  match s with
  | EmptyString => EmptyString
  | String c s' =>
      let c' := lowerAscii c in
      if isAlnum c' then
        if sep && started then String "-" (String c' (slugify false true s'))
        else String c' (slugify false true s')
      else slugify true started s'
  end.

(** Modelled from the spec: [helpers/generateSlug], whose source is missing.
    It lower-cases, replaces every run of non-alphanumeric
    characters by a single separator and strips leading and trailing
    separators; empty or separator-only input gives the empty string. *)
Definition generateSlugModel (text : string) : string := slugify false false text.

(** ** Notions the statements are written with *)

(** The [k]-th slug probed for a candidate: the candidate itself, then
    [candidate-1], [candidate-2], ... *)
Definition probeAt (candidate : string) (k : nat) : string :=
  match k with
  | O => candidate
  | S _ => candidate ++ "-" ++ decimal k
  end.

Definition hasDate (b : Blog) : bool :=
  match publishedAt b with Some _ => true | None => false end.

(** The feed of a store: the articles that carry a publication date, newest
    first. *)
Definition feed (st : Store) : list Blog :=
  sortDesc (filter hasDate (docs st)).

(** Descending order of the sort key, as a relation between a document and a
    later one. *)
Definition descOrder (a b : Blog) : Prop :=
  dateLeb (publishedAt b) (publishedAt a) = true.

(** Strictly later publication date, on list items. *)
Definition laterThan (a b : BlogItem) : Prop :=
  match item_publishedAt a, item_publishedAt b with
  | Some x, Some y => (y < x)%Z
  | _, _ => False
  end.

(** The request sends a boolean [isPublished], or none. *)
Definition booleanFlag (body : Body) : Prop :=
  match body_isPublished body with
  | None | Some (FlagBool _) => True
  | Some _ => False
  end.

(** One state-changing request whose [isPublished] is a boolean or is not
    sent, and the runs made of such requests. *)
Inductive typedStep (generateSlug : string -> string) : Store -> Store -> Prop :=
| typed_post now user body st :
    booleanFlag body ->
    typedStep generateSlug st (snd (postBlog generateSlug now user body st))
| typed_update now slugParam user body st :
    booleanFlag body ->
    typedStep generateSlug st
              (snd (updateBlogController generateSlug now slugParam user body st))
| typed_delete slugParam user st :
    typedStep generateSlug st (snd (deleteBlogController slugParam user st)).

Inductive typedSteps (generateSlug : string -> string) : Store -> Store -> Prop :=
| typed_refl st : typedSteps generateSlug st st
| typed_next st1 st2 st3 :
    typedSteps generateSlug st1 st2 -> typedStep generateSlug st2 st3 ->
    typedSteps generateSlug st1 st3.

(** Fresh identifiers: the documents have pairwise different [_id]s, all
    below the counter. *)
Definition wellFormed (st : Store) : Prop :=
  NoDup (map _id (docs st)) /\ Forall (fun b => _id b < nextId st)%nat (docs st).

(** A reader that follows [nextCursor] from page to page until it is null,
    collecting the pages with their cursors; [fuel] bounds the number of
    requests. *)
Fixpoint paginate (fuel : nat) (parsedLimit : option Z) (cursor : option Z)
         (st : Store) : option (list (list BlogItem * option Z)) :=
  match fuel with
  | O => None
  | S fuel' =>
      match getAllBlogs parsedLimit cursor st with
      | mkResponse _ (Page items None) => Some [(items, None)]
      | mkResponse _ (Page items (Some c)) =>
          match paginate fuel' parsedLimit (Some c) st with
          | Some rest => Some ((items, Some c) :: rest)
          | None => None
          end
      | _ => None
      end
  end.

Definition pageItems (pages : list (list BlogItem * option Z)) : list BlogItem :=
  List.concat (map fst pages).

(** What the page-boundary rule prescribes for a call that fetched
    [fetched] under page size [limit]. *)
Definition pageRule (limit : Z) (fetched : list BlogItem) (r : Response) : Prop :=
  ((limit < Z.of_nat (List.length fetched))%Z ->
   exists l, lastItem (firstn (Z.to_nat limit) fetched) = Some l /\
             r = mkResponse 200 (Page (firstn (Z.to_nat limit) fetched)
                                      (item_publishedAt l))) /\
  ((Z.of_nat (List.length fetched) <= limit)%Z ->
   r = mkResponse 200 (Page fetched None)).

(** ** Sample requests and stores *)

Definition helloBody (published : option bool) : Body :=
  mkBody (Some "Hello World!!") (Some "first words") None None
         (option_map FlagBool published).

(** A request that sends [isPublished] as a raw value of any kind. *)
Definition rawBody (flag : RawFlag) : Body :=
  mkBody (Some "Hello World!!") (Some "first words") None None (Some flag).

(** A patch that only sends [isPublished]. *)
Definition flagPatch (flag : RawFlag) : Body :=
  mkBody None None None None (Some flag).

(** One article, created with [isPublished: "false"]. *)
Definition stringFlagStore : Store :=
  snd (postBlog generateSlugModel 1000 (Some "u1")
                (rawBody (FlagString WordFalse)) emptyStore).

(** The published article of [tieStore]'s first request after its author
    sent [isPublished: "false"] in an update. *)
Definition stringPatchStore : Store :=
  snd (updateBlogController generateSlugModel 2000 "hello-world" (Some "u1")
         (flagPatch (FlagString WordFalse))
         (snd (postBlog generateSlugModel 1000 (Some "u1") (helloBody None)
                        emptyStore))).

Definition imageOnly : Body :=
  mkBody None None (Some "https://img.example/cover.png") None None.

Definition emptyPatch : Body := mkBody None None None None None.

(** One article, created as a draft by ["u1"]. *)
Definition draftStore : Store :=
  snd (postBlog generateSlugModel 1000 (Some "u1") (helloBody (Some false))
                emptyStore).

(** The draft after its author sent an update without [isPublished]. *)
Definition republishedStore : Store :=
  snd (updateBlogController generateSlugModel 2000 "hello-world" (Some "u1")
                            emptyPatch draftStore).

(** Two published articles created within the same millisecond. *)
Definition tieStore : Store :=
  snd (postBlog generateSlugModel 1000 (Some "u2") (helloBody None)
         (snd (postBlog generateSlugModel 1000 (Some "u1") (helloBody None)
                        emptyStore))).

(** Three published articles with different dates. *)
Definition threeStore : Store :=
  snd (postBlog generateSlugModel 3000 (Some "u1") (helloBody None)
         (snd (postBlog generateSlugModel 2000 (Some "u2") (helloBody None)
                (snd (postBlog generateSlugModel 1000 (Some "u1")
                               (helloBody None) emptyStore))))).

(** The document of [draftStore]. *)
Definition draftBlog : Blog :=
  mkBlog 0 "Hello World!!" "first words" None "hello-world" "u1" []
         (Some false) true None 1000 1000.

(** A published article, and a second one created as a draft and published
    by its author through an update. *)
Definition lateStore : Store :=
  snd (updateBlogController generateSlugModel 3000 "hello-world-1" (Some "u2")
         emptyPatch
         (snd (postBlog generateSlugModel 2000 (Some "u2")
                 (helloBody (Some false))
                 (snd (postBlog generateSlugModel 1000 (Some "u1")
                                (helloBody None) emptyStore))))).

(** ** The single-article read *)

(** The fields of a user document that [.populate("author", "name email pfp")]
    joins in.  The user collection lies outside this development: the read
    handler takes it as a lookup by identifier, [None] for a missing user
    (the populated field is then null). *)
Record Author := mkAuthor {
  author_id : string;
  author_name : string;
  author_email : string;
  author_pfp : option string
}.

Inductive SinglePayload :=
| SingleMessage
| SingleBlog (blog : Blog) (authorDetail : option Author).

Record SingleResponse := mkSingle {
  single_status : nat;
  single_payload : SinglePayload
}.

(** [getSingleBlog]; no acting identity is read (the check is commented
    out in the source). *)
Definition getSingleBlog (users : string -> option Author) (slugParam : string)
           (st : Store) : SingleResponse :=
  if slugParam =? "" then mkSingle 400 SingleMessage
  else
    match findOne slugParam (docs st) with
    | None => mkSingle 404 SingleMessage
    | Some blog => mkSingle 200 (SingleBlog blog (users (author blog)))
    end.

(** ** [helpers/sendToken] *)

Record CookieOptions := mkOptions {
  httpOnly : bool;
  secure : bool;
  sameSite : string;
  maxAge : Z
}.

Record Cookie := mkCookie {
  cookie_name : string;
  cookie_value : string;
  cookie_options : CookieOptions
}.

(** [sendToken]; the response is the list of cookies set on it so far, each
    [res.cookie] call adding one at the end. *)
Definition sendToken (res : list Cookie) (accessToken refreshToken : string)
           (message : option string) : list Cookie :=
  let res1 :=
    (res ++ [mkCookie "refreshToken" refreshToken
                      (mkOptions true true "none" (7 * 24 * 60 * 60 * 1000))])%list in
  (res1 ++ [mkCookie "accessToken" accessToken
                     (mkOptions true true "none" (15 * 60 * 1000))])%list.

(** ** [providers/NavbarProvider] *)

(** [s.startsWith(p)]. *)
Definition startsWith (s p : string) : bool := String.prefix p s.

Definition hideRoutes : list string :=
  ["/dashboard"; "/dashboard/myBlogs"; "/dashboard/addToSite"; "/login";
   "/signup"; "/preview"].

(** [hideRoutes.includes(pathname)]. *)
Definition includes (l : list string) (s : string) : bool :=
  existsb (fun r => r =? s) l.

Definition isDynamicMyBlogRoute (pathname : string) : bool :=
  (startsWith pathname "/dashboard/myBlogs/" &&
   negb (pathname =? "/dashboard/myBlogs")) ||
  startsWith pathname "/preview/".

Inductive Rendered := Navbar.

(** [NavbarProvider] as a function of [usePathname()]: [None] is the
    [null] it returns to render nothing. *)
Definition NavbarProvider (pathname : string) : option Rendered :=
  if includes hideRoutes pathname || isDynamicMyBlogRoute pathname then None
  else Some Navbar.

(** ** Further notions for the statements *)

(** The fields of an article that no handler writes after creation. *)
Definition fixedPart (b : Blog) : string * string * Z * option Z :=
  (slug b, author b, createdAt b, publishedAt b).

(** Descending order of the sort key on list items. *)
Definition itemDescOrder (a b : BlogItem) : Prop :=
  dateLeb (item_publishedAt b) (item_publishedAt a) = true.

(** The text fields every handler keeps non-empty. *)
Definition filledIn (b : Blog) : Prop :=
  title b <> "" /\ content b <> "" /\ author b <> "".

(** A date is below [now]: null, or strictly earlier. *)
Definition earlier (now : Z) (d : option Z) : Prop :=
  match d with
  | Some t => (t < now)%Z
  | None => True
  end.

Definition sampleUsers (id : string) : option Author :=
  if id =? "u1" then Some (mkAuthor "u1" "Uma" "uma@example.org" None)
  else None.

(** * Properties *)

(** ** Basic facts about the collection operations *)

Lemma findOne_Some (s : string) (ds : list Blog) (b : Blog) :
  findOne s ds = Some b -> In b ds /\ slug b = s.
Proof.
  unfold findOne. intros H. apply find_some in H.
  destruct H as [Hin Heq]. apply String.eqb_eq in Heq. auto.
Qed.

Lemma findOne_None (s : string) (ds : list Blog) :
  findOne s ds = None <-> forall b, In b ds -> slug b <> s.
Proof.
  unfold findOne. split.
  - intros H b Hin Heq.
    pose proof (find_none _ _ H b Hin) as Hn. cbn in Hn.
    apply String.eqb_neq in Hn. contradiction.
  - intros H. destruct (find _ ds) eqn:E; [|reflexivity].
    apply find_some in E. destruct E as [Hin Heq].
    apply String.eqb_eq in Heq. exfalso. exact (H b Hin Heq).
Qed.

Lemma truthy_Some (v : option string) :
  truthy v = true <-> exists s, v = Some s /\ s <> "".
Proof.
  destruct v as [s|]; cbn.
  - rewrite negb_true_iff, String.eqb_neq. split.
    + intros H. exists s. auto.
    + intros [s' [E H]]. injection E as ->. exact H.
  - split; [discriminate|]. intros [s [E _]]. discriminate.
Qed.

Lemma save_In (u : Blog) (ds : list Blog) (b : Blog) :
  In b (save u ds) -> b = u \/ In b ds.
Proof.
  unfold save. rewrite in_map_iff. intros [d [E Hin]].
  destruct (_id d =? _id u)%nat; subst; auto.
Qed.

Lemma deleteOne_In (i : nat) (ds : list Blog) (b : Blog) :
  In b (deleteOne i ds) -> In b ds.
Proof.
  induction ds as [|d ds IH]; cbn; [tauto|].
  destruct (_id d =? i)%nat; cbn; intuition.
Qed.

Lemma deleteOne_length (i : nat) (ds : list Blog) (a : Blog) :
  In a ds -> _id a = i -> S (List.length (deleteOne i ds)) = List.length ds.
Proof.
  induction ds as [|d ds IH]; cbn; [tauto|].
  intros Hin Hid. destruct (_id d =? i)%nat eqn:E; [reflexivity|].
  destruct Hin as [-> | Hin].
  - apply Nat.eqb_neq in E. contradiction.
  - cbn. f_equal. auto.
Qed.

Lemma deleteOne_gone (i : nat) (ds : list Blog) (b : Blog) :
  NoDup (map _id ds) -> In b (deleteOne i ds) -> _id b <> i.
Proof.
  induction ds as [|d ds IH]; cbn; [tauto|].
  intros Hnd Hin. inversion Hnd as [|? ? Hnin Hnd']; subst.
  destruct (_id d =? i)%nat eqn:E.
  - apply Nat.eqb_eq in E. intros Hb. apply Hnin. rewrite E, <- Hb.
    apply in_map. exact Hin.
  - destruct Hin as [<- | Hin]; [apply Nat.eqb_neq; exact E | auto].
Qed.

(** A flag stored as true was truthy in the request. *)
Lemma castBoolean_true (v : RawFlag) :
  castBoolean v = Some true -> flagTruthy v = true.
Proof.
  destruct v as [|b|one|w]; cbn; try discriminate.
  - intros H. injection H as ->. reflexivity.
  - intros H. injection H as ->. reflexivity.
  - destruct w; cbn; try discriminate; reflexivity.
Qed.

Lemma booleanFlag_requestFlag (body : Body) :
  booleanFlag body -> exists p, requestFlag body = FlagBool p.
Proof.
  unfold booleanFlag, requestFlag.
  destruct (body_isPublished body) as [[|p|one|w]|]; try contradiction; eauto.
Qed.

Lemma delete_docs (slugParam : string) (user : option string) (st : Store) :
  snd (deleteBlogController slugParam user st) = st \/
  exists A, In A (docs st) /\
            snd (deleteBlogController slugParam user st) =
            mkStore (deleteOne (_id A) (docs st)) (nextId st).
Proof.
  unfold deleteBlogController.
  destruct user as [a|]; [|left; reflexivity].
  destruct ((slugParam =? "") || (a =? "")); [left; reflexivity|].
  destruct (findOne slugParam (docs st)) as [A|] eqn:Hf; [|left; reflexivity].
  destruct (negb (author A =? a)); [left; reflexivity|].
  right. exists A. split; [|reflexivity].
  apply findOne_Some in Hf. tauto.
Qed.

Lemma NoDup_map_In_eq {A B : Type} (f : A -> B) (l : list A) (a b : A) :
  NoDup (map f l) -> In a l -> In b l -> f a = f b -> a = b.
Proof.
  induction l as [|x l IH]; cbn; [tauto|].
  intros Hnd Ha Hb E. inversion Hnd as [|? ? Hnin Hnd']; subst.
  destruct Ha as [-> | Ha], Hb as [-> | Hb]; auto.
  - exfalso. apply Hnin. rewrite E. apply in_map. exact Hb.
  - exfalso. apply Hnin. rewrite <- E. apply in_map. exact Ha.
Qed.

Lemma save_ids (u A : Blog) (ds : list Blog) :
  _id u = _id A -> map _id (save u ds) = map _id ds.
Proof.
  intros E. unfold save. rewrite map_map. apply map_ext.
  intros d. destruct (_id d =? _id u)%nat eqn:Hd; [|reflexivity].
  apply Nat.eqb_eq in Hd. congruence.
Qed.

Lemma deleteOne_NoDup_map {B : Type} (f : Blog -> B) (i : nat) (ds : list Blog) :
  NoDup (map f ds) -> NoDup (map f (deleteOne i ds)).
Proof.
  induction ds as [|d ds IH]; cbn; [auto|].
  intros Hnd. inversion Hnd as [|? ? Hnin Hnd']; subst.
  destruct (_id d =? i)%nat; [assumption|].
  cbn. constructor; [|auto].
  intros Hin. apply Hnin. apply in_map_iff in Hin.
  destruct Hin as [x [E Hx]]. apply deleteOne_In in Hx.
  rewrite <- E. apply in_map. exact Hx.
Qed.

Section HandlerProperties.

Variable generateSlug : string -> string.

Local Abbreviation update := (updateBlogController generateSlug).
Local Abbreviation create := (postBlog generateSlug).

(** The update handler on a found document owned by the caller. *)
Lemma update_owner (now : Z) (slugParam authorId : string) (body : Body)
      (st : Store) (A : Blog) :
  slugParam <> "" -> authorId <> "" ->
  findOne slugParam (docs st) = Some A -> author A = authorId ->
  update now slugParam (Some authorId) body st =
  (mkResponse 200 (OneBlog (applyPatch generateSlug now body A)),
   mkStore (save (applyPatch generateSlug now body A) (docs st)) (nextId st)).
Proof.
  intros Hs Ha Hf Hau. unfold updateBlogController.
  apply String.eqb_neq in Hs, Ha. rewrite Hs, Ha, Hf. cbn.
  apply String.eqb_eq in Hau. rewrite Hau. reflexivity.
Qed.

(** Every document the create handler leaves in the store is an old one or
    the document of the 201 response. *)
Lemma create_docs (now : Z) (user : option string) (body : Body) (st : Store) :
  snd (create now user body st) = st \/
  exists b, fst (create now user body st) = mkResponse 201 (OneBlog b) /\
            snd (create now user body st) =
            mkStore (docs st ++ [b]) (S (nextId st)) /\
            _id b = nextId st /\
            isPublished b = castBoolean (requestFlag body) /\
            isDraft b = negb (flagTruthy (requestFlag body)) /\
            publishedAt b =
              (if flagTruthy (requestFlag body) then Some now else None).
Proof.
  unfold postBlog.
  destruct (body_title body) as [t|]; [|left; reflexivity].
  destruct (body_content body) as [c|]; [|left; reflexivity].
  destruct ((t =? "") || (c =? "")); [left; reflexivity|].
  destruct (negb (truthy user)); [left; reflexivity|].
  destruct user as [a|]; [|left; reflexivity].
  destruct (resolveSlug (docs st) (generateSlug t)) as [s|];
    [|left; reflexivity].
  right. eexists. cbn. repeat split; try reflexivity.
Qed.

(** Every document the update handler leaves in the store is an old one or
    the patched version of the document it loaded. *)
Lemma update_docs (now : Z) (slugParam : string) (user : option string)
      (body : Body) (st : Store) :
  snd (update now slugParam user body st) = st \/
  exists A, In A (docs st) /\
            snd (update now slugParam user body st) =
            mkStore (save (applyPatch generateSlug now body A) (docs st))
                    (nextId st).
Proof.
  unfold updateBlogController.
  destruct user as [a|]; [|left; reflexivity].
  destruct ((slugParam =? "") || (a =? "")); [left; reflexivity|].
  destruct (findOne slugParam (docs st)) as [A|] eqn:Hf; [|left; reflexivity].
  destruct (negb (author A =? a)); [left; reflexivity|].
  right. exists A. split; [|reflexivity].
  apply findOne_Some in Hf. tauto.
Qed.

(** *** Drafts and published articles (C8) *)

(** What create and update store for a boolean flag, or for none. *)
Lemma applyPatch_boolean (now : Z) (body : Body) (A : Blog) :
  booleanFlag body ->
  isPublished (applyPatch generateSlug now body A) =
  Some (negb (isDraft (applyPatch generateSlug now body A))).
Proof.
  intros Hb. destruct (booleanFlag_requestFlag body Hb) as [p E].
  unfold applyPatch. cbn. rewrite E. cbn. rewrite negb_involutive.
  reflexivity.
Qed.

(** Requests with a boolean flag, or none, keep [isDraft] the negation of
    [isPublished]. *)
Lemma create_complementary (now : Z) (user : option string) (body : Body)
      (st : Store) :
  booleanFlag body ->
  (forall b, In b (docs st) -> isPublished b = Some (negb (isDraft b))) ->
  forall b, In b (docs (snd (create now user body st))) ->
            isPublished b = Some (negb (isDraft b)).
Proof.
  intros Hb Hinv b Hin.
  destruct (create_docs now user body st) as [E | [n [_ [E [_ [Hp [Hd _]]]]]]];
    rewrite E in Hin; [auto|].
  cbn in Hin. apply in_app_or in Hin. destruct Hin as [Hin | [<- | []]]; [auto|].
  destruct (booleanFlag_requestFlag body Hb) as [p Ep].
  rewrite Hp, Hd, Ep. cbn. rewrite negb_involutive. reflexivity.
Qed.

Lemma update_complementary (now : Z) (slugParam : string)
      (user : option string) (body : Body) (st : Store) :
  booleanFlag body ->
  (forall b, In b (docs st) -> isPublished b = Some (negb (isDraft b))) ->
  forall b, In b (docs (snd (update now slugParam user body st))) ->
            isPublished b = Some (negb (isDraft b)).
Proof.
  intros Hb Hinv b Hin.
  destruct (update_docs now slugParam user body st) as [E | [A [_ E]]];
    rewrite E in Hin; [auto|].
  cbn in Hin. apply save_In in Hin. destruct Hin as [-> | Hin]; [|auto].
  apply applyPatch_boolean. exact Hb.
Qed.

(** Whatever the raw flags were, no stored article is a draft and published
    at once. *)
Lemma step_never_both (st st' : Store) :
  step generateSlug st st' ->
  (forall b, In b (docs st) -> isPublished b = Some true -> isDraft b = false) ->
  forall b, In b (docs st') -> isPublished b = Some true -> isDraft b = false.
Proof.
  intros Hstep Hinv. destruct Hstep.
  - intros b Hin.
    destruct (create_docs now user body st) as [E | [n [_ [E [_ [Hp [Hd _]]]]]]];
      rewrite E in Hin; [auto|].
    cbn in Hin. apply in_app_or in Hin.
    destruct Hin as [Hin | [<- | []]]; [auto|].
    rewrite Hp, Hd. intros H. rewrite (castBoolean_true _ H). reflexivity.
  - intros b Hin.
    destruct (update_docs now slugParam user body st) as [E | [A [_ E]]];
      rewrite E in Hin; [auto|].
    cbn in Hin. apply save_In in Hin. destruct Hin as [-> | Hin]; [|auto].
    unfold applyPatch. cbn. intros H.
    rewrite (castBoolean_true _ H). reflexivity.
  - intros b Hin.
    destruct (delete_docs slugParam user st) as [E | [A [_ E]]];
      rewrite E in Hin; [auto|].
    cbn in Hin. apply deleteOne_In in Hin. auto.
Qed.

Lemma reachable_never_both (st : Store) :
  reachable generateSlug st ->
  forall b, In b (docs st) -> isPublished b = Some true -> isDraft b = false.
Proof.
  unfold reachable. intros Hr. remember emptyStore as st0 eqn:E0.
  induction Hr as [st | st1 st2 st3 _ IH Hstep]; subst.
  - intros b [].
  - apply (step_never_both st2 st3 Hstep). apply IH. reflexivity.
Qed.

(** *** Ownership guard (C7, C10) *)

(** C7: for a request that names an existing article [A], update and
    delete answer 200 exactly when the acting identity is present and its
    string equals [A]'s author.  For the author the operation is carried
    out: the update answers with the patched article and stores it in the
    place of [A], the delete removes the document with [A]'s [_id], one
    document fewer is stored and, identifiers being pairwise different,
    [A] is gone.  A present but different identity gets 403 and the store
    is left as it was; an absent identity is denied (400) and nothing is
    written. *)
Theorem ownership_guard (now : Z) (slugParam : string) (user : option string)
        (body : Body) (st : Store) (A : Blog) :
  slugParam <> "" ->
  findOne slugParam (docs st) = Some A ->
  (status (fst (update now slugParam user body st)) = 200 <->
   truthy user = true /\ user = Some (author A)) /\
  (status (fst (deleteBlogController slugParam user st)) = 200 <->
   truthy user = true /\ user = Some (author A)) /\
  (truthy user = true -> user = Some (author A) ->
   update now slugParam user body st =
     (mkResponse 200 (OneBlog (applyPatch generateSlug now body A)),
      mkStore (save (applyPatch generateSlug now body A) (docs st))
              (nextId st)) /\
   In (applyPatch generateSlug now body A)
      (docs (snd (update now slugParam user body st))) /\
   deleteBlogController slugParam user st =
     (mkResponse 200 Message,
      mkStore (deleteOne (_id A) (docs st)) (nextId st)) /\
   S (List.length (docs (snd (deleteBlogController slugParam user st)))) =
     List.length (docs st) /\
   (NoDup (map _id (docs st)) ->
    ~ In A (docs (snd (deleteBlogController slugParam user st))))) /\
  (truthy user = true -> user <> Some (author A) ->
   update now slugParam user body st = (mkResponse 403 Message, st) /\
   deleteBlogController slugParam user st = (mkResponse 403 Message, st)) /\
  (truthy user = false ->
   update now slugParam user body st = (mkResponse 400 Message, st) /\
   deleteBlogController slugParam user st = (mkResponse 400 Message, st)).
Proof.
  intros Hs Hf.
  destruct (findOne_Some _ _ _ Hf) as [HA _].
  assert (Howner : truthy user = true -> user = Some (author A) ->
    update now slugParam user body st =
      (mkResponse 200 (OneBlog (applyPatch generateSlug now body A)),
       mkStore (save (applyPatch generateSlug now body A) (docs st))
               (nextId st)) /\
    deleteBlogController slugParam user st =
      (mkResponse 200 Message,
       mkStore (deleteOne (_id A) (docs st)) (nextId st))).
  { intros Ht ->. cbn in Ht. apply negb_true_iff in Ht.
    unfold updateBlogController, deleteBlogController.
    pose proof Hs as Hs'. apply String.eqb_neq in Hs'.
    rewrite Hs', Ht, Hf, String.eqb_refl. split; reflexivity. }
  apply String.eqb_neq in Hs.
  split; [|split; [|split; [|split]]].
  - unfold updateBlogController. destruct user as [x|]; unfold truthy.
    + rewrite Hs, Hf. cbn [orb].
      destruct (x =? "") eqn:Hx; cbn [negb fst status].
      * split; [discriminate | intros [E _]; discriminate].
      * destruct (author A =? x) eqn:Hax; cbn [negb fst status].
        -- apply String.eqb_eq in Hax. subst x. split; auto.
        -- apply String.eqb_neq in Hax.
           split; [discriminate | intros [_ E]; injection E as E; congruence].
    + split; [discriminate | intros [E _]; discriminate].
  - unfold deleteBlogController. destruct user as [x|]; unfold truthy.
    + rewrite Hs, Hf. cbn [orb].
      destruct (x =? "") eqn:Hx; cbn [negb fst status].
      * split; [discriminate | intros [E _]; discriminate].
      * destruct (author A =? x) eqn:Hax; cbn [negb fst status].
        -- apply String.eqb_eq in Hax. subst x. split; auto.
        -- apply String.eqb_neq in Hax.
           split; [discriminate | intros [_ E]; injection E as E; congruence].
    + split; [discriminate | intros [E _]; discriminate].
  - intros Ht Hu. destruct (Howner Ht Hu) as [Hupd Hdel].
    rewrite Hupd, Hdel. cbn [snd docs].
    split; [reflexivity|]. split.
    + unfold save. apply in_map_iff. exists A.
      split; [|exact HA]. cbn. rewrite Nat.eqb_refl. reflexivity.
    + split; [reflexivity|]. split.
      * apply (deleteOne_length _ _ A); [exact HA | reflexivity].
      * intros Hnd Hin.
        apply (deleteOne_gone (_id A) (docs st) A Hnd Hin). reflexivity.
  - intros Ht Hne. unfold updateBlogController, deleteBlogController.
    destruct user as [x|]; [|discriminate]. cbn in Ht.
    apply negb_true_iff in Ht. rewrite Hs, Ht, Hf. cbn [orb].
    destruct (author A =? x) eqn:Hax; cbn [negb].
    + apply String.eqb_eq in Hax. subst x. contradiction.
    + split; reflexivity.
  - intros Ht. unfold updateBlogController, deleteBlogController.
    destruct user as [x|]; [|split; reflexivity]. cbn in Ht.
    apply negb_false_iff in Ht. rewrite Ht, orb_true_r. split; reflexivity.
Qed.

(** C10: update and delete look the article up before they compare the
    author: a non-empty slug that matches no article gives 404 to every
    authenticated caller, and a 403 is only ever given for a slug that
    matches a stored article. *)
Theorem existence_before_ownership (now : Z) (slugParam : string)
        (user : option string) (body : Body) (st : Store) :
  (slugParam <> "" -> truthy user = true ->
   findOne slugParam (docs st) = None ->
   update now slugParam user body st = (mkResponse 404 Message, st) /\
   deleteBlogController slugParam user st = (mkResponse 404 Message, st)) /\
  (status (fst (update now slugParam user body st)) = 403 ->
   exists A, In A (docs st) /\ slug A = slugParam) /\
  (status (fst (deleteBlogController slugParam user st)) = 403 ->
   exists A, In A (docs st) /\ slug A = slugParam).
Proof.
  unfold updateBlogController, deleteBlogController.
  destruct user as [x|]; cbn.
  - destruct (slugParam =? "") eqn:Hs; cbn.
    + apply String.eqb_eq in Hs.
      repeat split; try discriminate; intros; contradiction.
    + destruct (x =? "") eqn:Hx; cbn.
      * repeat split; discriminate.
      * destruct (findOne slugParam (docs st)) as [A|] eqn:Hf.
        -- apply findOne_Some in Hf.
           repeat split; try discriminate; intros; exists A; exact Hf.
        -- repeat split; discriminate.
  - repeat split; discriminate.
Qed.

(** *** Partial update (C2) *)

(** C2, as the handler has it: an update by the author writes [title],
    [content] and [imageUrl] only from truthy fields and [tags] only from
    a non-empty array, leaves [slug] alone and always refreshes
    [updatedAt]; [isPublished] is overwritten on every update, by the cast
    of the raw field of the patch and by [true] when the field is absent,
    and [isDraft] by the JavaScript negation of the raw field: for a boolean
    field [p] the article stores [isPublished = p] and [isDraft = !p].  In
    particular an update that carries only [imageUrl] leaves [title],
    [content], [tags] and [slug] unchanged and stores [isPublished = true],
    [isDraft = false]. *)
Theorem partial_update (now : Z) (slugParam authorId : string) (body : Body)
        (st : Store) (A : Blog) :
  slugParam <> "" -> authorId <> "" ->
  findOne slugParam (docs st) = Some A -> author A = authorId ->
  exists A',
    update now slugParam (Some authorId) body st =
    (mkResponse 200 (OneBlog A'),
     mkStore (save A' (docs st)) (nextId st)) /\
    (truthy (body_title body) = false -> title A' = title A) /\
    (truthy (body_content body) = false -> content A' = content A) /\
    (truthy (body_imageUrl body) = false -> imageUrl A' = imageUrl A) /\
    (body_tags body = None \/ body_tags body = Some [] -> tags A' = tags A) /\
    (forall t, body_title body = Some t -> t <> "" -> title A' = t) /\
    (forall c, body_content body = Some c -> c <> "" -> content A' = c) /\
    (forall u, body_imageUrl body = Some u -> u <> "" ->
               imageUrl A' = Some u) /\
    (forall ts, body_tags body = Some ts -> ts <> [] ->
                tags A' = formatTags generateSlug ts) /\
    isPublished A' = castBoolean (requestFlag body) /\
    isDraft A' = negb (flagTruthy (requestFlag body)) /\
    (forall p, body_isPublished body = Some (FlagBool p) ->
               isPublished A' = Some p /\ isDraft A' = negb p) /\
    (body_isPublished body = None ->
     isPublished A' = Some true /\ isDraft A' = false) /\
    updatedAt A' = now /\
    slug A' = slug A /\
    (forall u, body = mkBody None None (Some u) None None ->
               title A' = title A /\ content A' = content A /\
               tags A' = tags A /\ slug A' = slug A /\
               isPublished A' = Some true /\ isDraft A' = false).
Proof.
  intros Hs Ha Hf Hau.
  exists (applyPatch generateSlug now body A).
  split; [apply update_owner; assumption|].
  unfold applyPatch; cbn.
  repeat match goal with |- _ /\ _ => split end; try reflexivity.
  - destruct (body_title body) as [t|]; cbn; [|reflexivity].
    destruct (t =? ""); [reflexivity | discriminate].
  - destruct (body_content body) as [c|]; cbn; [|reflexivity].
    destruct (c =? ""); [reflexivity | discriminate].
  - destruct (body_imageUrl body) as [u|]; cbn; [|reflexivity].
    destruct (u =? ""); [reflexivity | discriminate].
  - intros [-> | ->]; reflexivity.
  - intros t -> Ht. apply String.eqb_neq in Ht. rewrite Ht. reflexivity.
  - intros c -> Hc. apply String.eqb_neq in Hc. rewrite Hc. reflexivity.
  - intros u -> Hu. apply String.eqb_neq in Hu. rewrite Hu. reflexivity.
  - intros ts -> Hts. destruct ts; [contradiction | reflexivity].
  - intros p Hp. unfold requestFlag. rewrite Hp. split; reflexivity.
  - intros Hp. unfold requestFlag. rewrite Hp. split; reflexivity.
  - intros u ->. cbn. repeat split.
Qed.

(** *** Publication date (C1) *)

(** A step keeps identifiers fresh, never lowers the counter, and gives
    every document it leaves either a new identifier or the publication
    date of the stored document with the same identifier. *)
Lemma step_publishedAt (st st' : Store) :
  step generateSlug st st' -> wellFormed st ->
  wellFormed st' /\ (nextId st <= nextId st')%nat /\
  forall b', In b' (docs st') ->
    _id b' = nextId st \/
    exists b, In b (docs st) /\ _id b = _id b' /\
              publishedAt b = publishedAt b'.
Proof.
  intros Hstep [Hnd Hlt]. unfold wellFormed. destruct Hstep.
  - destruct (create_docs now user body st)
      as [E | [n [_ [E [Hid _]]]]]; rewrite E.
    + repeat split; auto. intros b' Hin. right. exists b'. auto.
    + cbn [docs nextId]. repeat split.
      * rewrite map_app. cbn [map]. apply NoDup_rev in Hnd.
        rewrite <- (rev_involutive (map _id (docs st) ++ [_id n])).
        apply NoDup_rev. rewrite rev_app_distr. cbn [rev app].
        constructor; [|exact Hnd].
        rewrite <- in_rev, in_map_iff. intros [x [Ex Hx]].
        rewrite Forall_forall in Hlt. specialize (Hlt x Hx). lia.
      * apply Forall_app. split.
        -- eapply Forall_impl; [|exact Hlt]. cbn. intros; lia.
        -- constructor; [lia | constructor].
      * lia.
      * intros b' Hin. apply in_app_or in Hin.
        destruct Hin as [Hin | [<- | []]]; [|left; exact Hid].
        right. exists b'. auto.
  - destruct (update_docs now slugParam user body st) as [E | [A [HA E]]];
      rewrite E.
    + repeat split; auto. intros b' Hin. right. exists b'. auto.
    + cbn [docs nextId]. repeat split.
      * rewrite (save_ids _ A); [exact Hnd | reflexivity].
      * rewrite Forall_forall in *. intros x Hx.
        apply save_In in Hx. destruct Hx as [-> | Hx]; [|auto].
        cbn. apply (Hlt A HA).
      * lia.
      * intros b' Hin. right. apply save_In in Hin.
        destruct Hin as [-> | Hin]; [exists A | exists b']; auto.
  - destruct (delete_docs slugParam user st) as [E | [A [HA E]]]; rewrite E.
    + repeat split; auto. intros b' Hin. right. exists b'. auto.
    + cbn [docs nextId]. repeat split.
      * apply deleteOne_NoDup_map. exact Hnd.
      * rewrite Forall_forall in *. intros x Hx.
        apply deleteOne_In in Hx. auto.
      * lia.
      * intros b' Hin. right. apply deleteOne_In in Hin. exists b'. auto.
Qed.

Lemma steps_publishedAt (st st' : Store) :
  steps generateSlug st st' -> wellFormed st ->
  wellFormed st' /\ (nextId st <= nextId st')%nat /\
  forall b b', In b (docs st) -> In b' (docs st') -> _id b' = _id b ->
               publishedAt b' = publishedAt b.
Proof.
  intros Hsteps. induction Hsteps as [st | st1 st2 st3 _ IH Hstep];
    intros Hwf.
  - repeat split; try apply Hwf; [lia|].
    intros b b' Hb Hb' E. destruct Hwf as [Hnd _].
    rewrite (NoDup_map_In_eq _id (docs st) b' b Hnd Hb' Hb E). reflexivity.
  - destruct (IH Hwf) as [Hwf2 [Hle2 Hp2]].
    destruct (step_publishedAt st2 st3 Hstep Hwf2) as [Hwf3 [Hle3 Hp3]].
    repeat split; try apply Hwf3; [lia|].
    intros b b' Hb Hb' E. destruct (Hp3 b' Hb') as [Hnew | [b2 [Hb2 [E2 P2]]]].
    + destruct Hwf as [_ Hlt]. rewrite Forall_forall in Hlt.
      specialize (Hlt b Hb). lia.
    + rewrite <- P2. apply Hp2; [assumption | assumption | congruence].
Qed.

Lemma reachable_wellFormed (st : Store) :
  reachable generateSlug st -> wellFormed st.
Proof.
  intros Hr. apply (steps_publishedAt emptyStore st Hr).
  split; cbn; constructor.
Qed.

(** C1, as the handlers have it: [publishedAt] is written once, by the
    create handler: the creation time when the raw [isPublished] of the
    request is truthy (or absent) and null otherwise, so that an article
    stored as published always carries the creation time and, for a boolean
    or absent flag, the date is the creation time for an article stored as
    published and null for one stored as a draft.  No later request changes
    the [publishedAt] of a stored article: the update handler returns the
    article with the date it had, and along every run from a reachable
    store an article keeps its date. *)
Theorem publishedAt_written_at_creation_only :
  (forall now user body st b,
     fst (create now user body st) = mkResponse 201 (OneBlog b) ->
     publishedAt b =
       (if flagTruthy (requestFlag body) then Some now else None) /\
     (isPublished b = Some true -> publishedAt b = Some now) /\
     (booleanFlag body ->
      exists p, isPublished b = Some p /\ isDraft b = negb p /\
                publishedAt b = (if p then Some now else None))) /\
  (forall now slugParam user body st b',
     fst (update now slugParam user body st) = mkResponse 200 (OneBlog b') ->
     exists b, findOne slugParam (docs st) = Some b /\
               _id b' = _id b /\ publishedAt b' = publishedAt b) /\
  (forall st st' b b',
     reachable generateSlug st -> steps generateSlug st st' ->
     In b (docs st) -> In b' (docs st') -> _id b' = _id b ->
     publishedAt b' = publishedAt b).
Proof.
  split; [|split].
  - intros now user body st b H.
    destruct (create_docs now user body st)
      as [E | [n [R [_ [_ [F [D P]]]]]]].
    + exfalso. revert H E. unfold postBlog.
      destruct (body_title body) as [t|]; [|discriminate].
      destruct (body_content body) as [c|]; [|discriminate].
      destruct ((t =? "") || (c =? "")); [discriminate|].
      destruct (negb (truthy user)); [discriminate|].
      destruct user as [a|]; [|discriminate].
      destruct (resolveSlug (docs st) (generateSlug t)); [|discriminate].
      cbn. intros _ E.
      apply (f_equal (fun s => List.length (docs s))) in E. cbn in E.
      rewrite length_app in E. cbn in E. lia.
    + rewrite R in H. injection H as <-.
      split; [exact P|]. split.
      * intros Ht. rewrite F in Ht. apply castBoolean_true in Ht.
        rewrite P, Ht. reflexivity.
      * intros Hb. destruct (booleanFlag_requestFlag body Hb) as [p Hp].
        exists p. rewrite F, D, P, Hp. cbn. auto.
  - intros now slugParam user body st b'. unfold updateBlogController.
    destruct user as [a|]; [|discriminate].
    destruct ((slugParam =? "") || (a =? "")); [discriminate|].
    destruct (findOne slugParam (docs st)) as [A|]; [|discriminate].
    destruct (negb (author A =? a)); [discriminate|].
    cbn. intros H. injection H as <-. exists A. auto.
  - intros st st' b b' Hr Hsteps.
    apply (steps_publishedAt st st' Hsteps).
    apply reachable_wellFormed. exact Hr.
Qed.

End HandlerProperties.

(** ** The sort behind the two listings *)

Section Sorting.

Lemma dateLeb_trans (x y z : option Z) :
  dateLeb x y = true -> dateLeb y z = true -> dateLeb x z = true.
Proof.
  destruct x, y, z; cbn; try congruence.
  rewrite !Z.leb_le. lia.
Qed.

Lemma dateLeb_total (x y : option Z) :
  dateLeb x y = false -> dateLeb y x = true.
Proof.
  destruct x, y; cbn; try congruence.
  rewrite Z.leb_gt, Z.leb_le. lia.
Qed.

Lemma insertDesc_perm (b : Blog) (ds : list Blog) :
  Permutation (insertDesc b ds) (b :: ds).
Proof.
  induction ds as [|d ds IH]; cbn; [reflexivity|].
  destruct (dateLeb (publishedAt d) (publishedAt b)); [reflexivity|].
  rewrite IH. apply perm_swap.
Qed.

Lemma sortDesc_perm (ds : list Blog) : Permutation (sortDesc ds) ds.
Proof.
  induction ds as [|d ds IH]; cbn; [reflexivity|].
  rewrite insertDesc_perm. constructor. exact IH.
Qed.

Lemma sortDesc_In (ds : list Blog) (b : Blog) :
  In b (sortDesc ds) <-> In b ds.
Proof.
  split; apply Permutation_in;
    [apply sortDesc_perm | symmetry; apply sortDesc_perm].
Qed.

Lemma sortDesc_length (ds : list Blog) :
  List.length (sortDesc ds) = List.length ds.
Proof. apply Permutation_length, sortDesc_perm. Qed.

Lemma insertDesc_sorted (b : Blog) (ds : list Blog) :
  StronglySorted descOrder ds -> StronglySorted descOrder (insertDesc b ds).
Proof.
  induction ds as [|d ds IH]; cbn; intros Hs.
  - repeat constructor.
  - inversion Hs as [|? ? Hs' Hall]; subst.
    destruct (dateLeb (publishedAt d) (publishedAt b)) eqn:E.
    + constructor; [exact Hs|]. constructor; [exact E|].
      eapply Forall_impl; [|exact Hall]. unfold descOrder. intros x Hx.
      eapply dateLeb_trans; eauto.
    + constructor; [auto|].
      rewrite Forall_forall in *. intros x Hx.
      apply (Permutation_in _ (insertDesc_perm b ds)) in Hx.
      destruct Hx as [<- | Hx]; [|auto].
      apply dateLeb_total. exact E.
Qed.

Lemma sortDesc_sorted (ds : list Blog) : StronglySorted descOrder (sortDesc ds).
Proof.
  induction ds as [|d ds IH]; cbn; [constructor|].
  apply insertDesc_sorted. exact IH.
Qed.

(** Filtering commutes with inserting into a sorted list. *)
Lemma filter_insertDesc (p : Blog -> bool) (b : Blog) (ds : list Blog) :
  StronglySorted descOrder ds ->
  filter p (insertDesc b ds) =
  if p b then insertDesc b (filter p ds) else filter p ds.
Proof.
  induction ds as [|d ds IH]; intros Hs.
  - cbn. destruct (p b); reflexivity.
  - inversion Hs as [|? ? Hs' Hall]; subst. specialize (IH Hs').
    cbn [insertDesc].
    destruct (dateLeb (publishedAt d) (publishedAt b)) eqn:E.
    + cbn [filter]. destruct (p b) eqn:Hb; [|reflexivity].
      destruct (p d) eqn:Hd.
      * cbn [insertDesc]. rewrite E. reflexivity.
      * destruct (filter p ds) as [|z zs] eqn:Hf; [reflexivity|].
        cbn [insertDesc].
        assert (Hz : In z ds).
        { apply (proj1 (filter_In p z ds)). rewrite Hf. left. reflexivity. }
        rewrite Forall_forall in Hall. specialize (Hall z Hz).
        unfold descOrder in Hall.
        rewrite (dateLeb_trans _ _ _ Hall E). reflexivity.
    + cbn [filter]. rewrite IH.
      destruct (p b) eqn:Hb, (p d) eqn:Hd; try reflexivity.
      cbn [insertDesc]. rewrite E. reflexivity.
Qed.

Lemma sortDesc_filter (p : Blog -> bool) (ds : list Blog) :
  sortDesc (filter p ds) = filter p (sortDesc ds).
Proof.
  induction ds as [|d ds IH]; [reflexivity|].
  cbn [sortDesc filter].
  rewrite filter_insertDesc by apply sortDesc_sorted.
  destruct (p d); cbn [sortDesc]; rewrite IH; reflexivity.
Qed.

(** In a sorted list the documents without a date come last. *)
Lemma sorted_dated_first (ds : list Blog) :
  StronglySorted descOrder ds ->
  ds = (filter hasDate ds ++ filter (fun b => negb (hasDate b)) ds)%list.
Proof.
  induction ds as [|d ds IH]; intros Hs; [reflexivity|].
  inversion Hs as [|? ? Hs' Hall]; subst. cbn [filter].
  destruct (hasDate d) eqn:Hd; cbn [negb].
  - rewrite <- app_comm_cons. f_equal. auto.
  - assert (Hnone : forall x, In x ds -> hasDate x = false).
    { rewrite Forall_forall in Hall. intros x Hx. specialize (Hall x Hx).
      unfold descOrder, hasDate in *.
      destruct (publishedAt d); [discriminate|].
      destruct (publishedAt x); [discriminate | reflexivity]. }
    assert (E1 : filter hasDate ds = []).
    { clear - Hnone. induction ds as [|x xs IHx]; [reflexivity|].
      cbn. rewrite (Hnone x (or_introl eq_refl)). apply IHx.
      intros y Hy. apply Hnone. right. exact Hy. }
    assert (E2 : filter (fun b => negb (hasDate b)) ds = ds).
    { clear - Hnone. induction ds as [|x xs IHx]; [reflexivity|].
      cbn. rewrite (Hnone x (or_introl eq_refl)). cbn. f_equal. apply IHx.
      intros y Hy. apply Hnone. right. exact Hy. }
    rewrite E1, E2. reflexivity.
Qed.

End Sorting.

(** ** The two listings *)

Section Listing.

Lemma lastItem_map {A B : Type} (f : A -> B) (l : list A) :
  lastItem (map f l) = option_map f (lastItem l).
Proof.
  induction l as [|x [|y l] IH]; try reflexivity.
  exact IH.
Qed.

Lemma lastItem_Some {A : Type} (l : list A) :
  l <> [] -> exists x, lastItem l = Some x.
Proof.
  induction l as [|x [|y l] IH]; intros H;
    [contradiction | exists x; reflexivity |].
  apply IH. discriminate.
Qed.

Lemma dropLast_map {A B : Type} (f : A -> B) (l : list A) :
  dropLast (map f l) = map f (dropLast l).
Proof.
  unfold dropLast. induction l as [|x [|y l] IH]; try reflexivity.
  cbn [map removelast] in *. rewrite <- IH. reflexivity.
Qed.

Lemma dropLast_In {A : Type} (l : list A) (x : A) :
  In x (dropLast l) -> In x l.
Proof.
  unfold dropLast. induction l as [|y [|z l] IH]; [auto | intros [] |].
  cbn [removelast]. intros [-> | H]; [left; reflexivity | right; exact (IH H)].
Qed.

Lemma firstn_In {A : Type} (n : nat) (l : list A) (x : A) :
  In x (firstn n l) -> In x l.
Proof.
  intros H. rewrite <- (firstn_skipn n l). apply in_or_app. left. exact H.
Qed.

Lemma mongoLimit_In {A : Type} (n : Z) (l : list A) (x : A) :
  In x (mongoLimit n l) -> In x l.
Proof.
  unfold mongoLimit. destruct (n =? 0)%Z; [auto | apply firstn_In].
Qed.

Lemma filter_none {A : Type} (p : A -> bool) (l : list A) :
  (forall x, In x l -> p x = false) -> filter p l = [].
Proof.
  induction l as [|y l IH]; intros H; [reflexivity|].
  cbn. rewrite (H y (or_introl eq_refl)). apply IH.
  intros x Hx. apply H. right. exact Hx.
Qed.

Lemma limitOf_nonzero (parsed : option Z) : limitOf parsed <> 0%Z.
Proof.
  destruct parsed as [n|]; cbn; [|discriminate].
  destruct (n =? 0)%Z eqn:E; [discriminate|]. apply Z.eqb_neq. exact E.
Qed.

(** The public listing under a page size of at least one, in terms of the
    sorted matches. *)
Lemma getAllBlogs_page (parsedLimit cursor : option Z) (st : Store) :
  (1 <= limitOf parsedLimit)%Z ->
  let L := Z.to_nat (limitOf parsedLimit) in
  let M := sortDesc (filter (cursorQuery cursor) (docs st)) in
  fetchPage (limitOf parsedLimit) cursor (docs st) =
    map select (firstn (S L) M) /\
  ((L < List.length M)%nat ->
   exists l, lastItem (firstn L M) = Some l /\
             getAllBlogs parsedLimit cursor st =
             mkResponse 200 (Page (map select (firstn L M)) (publishedAt l))) /\
  ((List.length M <= L)%nat ->
   getAllBlogs parsedLimit cursor st = mkResponse 200 (Page (map select M) None)).
Proof.
  intros Hpos L M.
  assert (Hfetch : fetchPage (limitOf parsedLimit) cursor (docs st) =
                   map select (firstn (S L) M)).
  { unfold fetchPage, mongoLimit.
    destruct (limitOf parsedLimit + 1 =? 0)%Z eqn:E;
      [apply Z.eqb_eq in E; lia|].
    replace (Z.abs_nat (limitOf parsedLimit + 1)) with (S L) by (unfold L; lia).
    reflexivity. }
  split; [exact Hfetch|].
  unfold getAllBlogs. rewrite Hfetch, length_map, length_firstn.
  split; intros Hlen.
  - replace (Z.of_nat (Nat.min (S L) (List.length M)) >? limitOf parsedLimit)%Z
      with true by (symmetry; apply Z.gtb_lt; unfold L; lia).
    rewrite dropLast_map. unfold dropLast.
    rewrite removelast_firstn by exact Hlen.
    rewrite lastItem_map.
    destruct (lastItem_Some (firstn L M)) as [l Hl].
    { intros E. apply (f_equal (@List.length Blog)) in E.
      rewrite length_firstn in E. cbn in E. unfold L in *. lia. }
    exists l. rewrite Hl. split; reflexivity.
  - replace (Z.of_nat (Nat.min (S L) (List.length M)) >? limitOf parsedLimit)%Z
      with false by (symmetry; rewrite Z.gtb_ltb; apply Z.ltb_ge; unfold L; lia).
    rewrite firstn_all2 by lia. reflexivity.
Qed.

(** *** What the public listing returns (C3) *)

(** C3, as the handler has it: every item of the public listing is the
    list-view projection of a stored article that satisfies the cursor
    predicate: any article when no cursor is sent, an article whose
    [publishedAt] is set and earlier than the cursor otherwise.  The
    [isPublished] flag is not consulted. *)
Theorem listing_items_match_cursor (parsedLimit cursor : option Z)
        (st : Store) (code : nat) (items : list BlogItem) (next : option Z) :
  getAllBlogs parsedLimit cursor st = mkResponse code (Page items next) ->
  forall it, In it items ->
    exists b, In b (docs st) /\ select b = it /\
              match cursor with
              | None => True
              | Some c => exists t, publishedAt b = Some t /\ (t < c)%Z
              end.
Proof.
  intros H it Hin.
  assert (Hfetched : In it (fetchPage (limitOf parsedLimit) cursor (docs st))).
  { revert H. unfold getAllBlogs.
    destruct (Z.of_nat _ >? _)%Z.
    - destruct (lastItem _); [|discriminate].
      intros E. injection E as _ <- _. apply dropLast_In. exact Hin.
    - intros E. injection E as _ <- _. exact Hin. }
  unfold fetchPage in Hfetched. apply in_map_iff in Hfetched.
  destruct Hfetched as [b [Hsel Hb]].
  apply mongoLimit_In, sortDesc_In, filter_In in Hb. destruct Hb as [Hb Hq].
  exists b. repeat split; try assumption.
  destruct cursor as [c|]; [|exact I]. cbn in Hq.
  destruct (publishedAt b) as [t|]; [|discriminate].
  exists t. split; [reflexivity | apply Z.ltb_lt; exact Hq].
Qed.

(** *** One call of the public listing (C5) *)

(** One call under a page size of at least one: without a cursor every
    article matches, with a cursor those whose [publishedAt] is earlier; the
    first [limit + 1] matches in descending order of [publishedAt] are
    fetched; when more than [limit] come back the page is the first [limit]
    of them and [nextCursor] is the [publishedAt] of the last one, otherwise
    the page is everything fetched and [nextCursor] is null; a missing or
    non-numeric [limit] counts as 10. *)
Theorem page_boundary (parsedLimit cursor : option Z) (st : Store) :
  (1 <= limitOf parsedLimit)%Z ->
  (forall b, cursorQuery None b = true) /\
  (forall c b, cursorQuery (Some c) b = true <->
               exists t, publishedAt b = Some t /\ (t < c)%Z) /\
  fetchPage (limitOf parsedLimit) cursor (docs st) =
    map select
        (firstn (Z.to_nat (limitOf parsedLimit + 1))
                (sortDesc (filter (cursorQuery cursor) (docs st)))) /\
  StronglySorted descOrder (sortDesc (filter (cursorQuery cursor) (docs st))) /\
  Permutation (sortDesc (filter (cursorQuery cursor) (docs st)))
              (filter (cursorQuery cursor) (docs st)) /\
  pageRule (limitOf parsedLimit)
           (fetchPage (limitOf parsedLimit) cursor (docs st))
           (getAllBlogs parsedLimit cursor st) /\
  limitOf None = 10%Z.
Proof.
  intros Hpos.
  destruct (getAllBlogs_page parsedLimit cursor st Hpos) as [Hf [Hmore Hless]].
  set (L := Z.to_nat (limitOf parsedLimit)) in *.
  set (M := sortDesc (filter (cursorQuery cursor) (docs st))) in *.
  repeat match goal with |- _ /\ _ => split end.
  - reflexivity.
  - intros c b. cbn. destruct (publishedAt b) as [t|].
    + rewrite Z.ltb_lt. split.
      * intros H. exists t. auto.
      * intros [t' [E H]]. injection E as ->. exact H.
    + split; [discriminate|]. intros [t [E _]]. discriminate.
  - rewrite Hf. replace (Z.to_nat (limitOf parsedLimit + 1)) with (S L)
      by (unfold L; lia). reflexivity.
  - apply sortDesc_sorted.
  - apply sortDesc_perm.
  - rewrite Hf. unfold pageRule. rewrite length_map, length_firstn.
    fold L. split; intros Hlen.
    + assert (HL : (L < List.length M)%nat) by (unfold L in *; lia).
      destruct (Hmore HL) as [l [Hl ->]].
      exists (select l). rewrite firstn_map, firstn_firstn.
      replace (Nat.min L (S L)) with L by lia.
      rewrite lastItem_map, Hl. split; reflexivity.
    + assert (HL : (List.length M <= L)%nat) by (unfold L in *; lia).
      rewrite (Hless HL), firstn_all2 by lia. reflexivity.
  - reflexivity.
Qed.

(** *** Listing by author (C9) *)

(** The author listing answers 401 without an acting identity, 404 when the
    identity has no article and 200 with the identity's articles otherwise;
    the public listing, under a page size that is not negative, answers 200
    with an empty array when nothing matches. *)
Theorem author_listing (user : option string) (st : Store) :
  (truthy user = false -> allBlogsOfUser user st = mkResponse 401 Message) /\
  (forall a, user = Some a -> a <> "" ->
     (forall b, In b (docs st) -> author b <> a) ->
     allBlogsOfUser user st = mkResponse 404 Message) /\
  (forall a, user = Some a -> a <> "" ->
     (exists b, In b (docs st) /\ author b = a) ->
     exists items,
       allBlogsOfUser user st = mkResponse 200 (Blogs items) /\
       items <> [] /\
       forall it, In it items <->
                  exists b, In b (docs st) /\ author b = a /\ select b = it) /\
  (forall parsedLimit cursor,
     (0 <= limitOf parsedLimit)%Z ->
     (forall b, In b (docs st) -> cursorQuery cursor b = false) ->
     getAllBlogs parsedLimit cursor st = mkResponse 200 (Page [] None)).
Proof.
  repeat match goal with |- _ /\ _ => split end.
  - unfold allBlogsOfUser, truthy. destruct user as [a|]; [|reflexivity].
    rewrite negb_false_iff. intros ->. reflexivity.
  - intros a -> Ha Hnone. unfold allBlogsOfUser.
    apply String.eqb_neq in Ha. rewrite Ha.
    rewrite filter_none; [reflexivity|].
    intros b Hb. apply String.eqb_neq. auto.
  - intros a -> Ha [b0 [Hb0 Hau]]. unfold allBlogsOfUser.
    apply String.eqb_neq in Ha. rewrite Ha.
    set (items := map select (sortDesc (filter (fun b => author b =? a) (docs st)))).
    assert (Hiff : forall it, In it items <->
              exists b, In b (docs st) /\ author b = a /\ select b = it).
    { intros it. unfold items. rewrite in_map_iff. split.
      - intros [b [E Hb]]. apply sortDesc_In, filter_In in Hb.
        destruct Hb as [Hb Hq]. apply String.eqb_eq in Hq. eauto.
      - intros [b [Hb [Hq E]]]. exists b. split; [exact E|].
        apply sortDesc_In, filter_In. split; [exact Hb|].
        apply String.eqb_eq. exact Hq. }
    assert (Hne : items <> []).
    { intros E. assert (Hin : In (select b0) items) by (apply Hiff; eauto).
      rewrite E in Hin. exact Hin. }
    exists items. split; [|split; assumption].
    fold items. destruct items as [|i rest]; [contradiction | reflexivity].
  - intros parsedLimit cursor Hpos Hnone.
    assert (Hpos' : (1 <= limitOf parsedLimit)%Z).
    { pose proof (limitOf_nonzero parsedLimit). lia. }
    destruct (getAllBlogs_page parsedLimit cursor st Hpos') as [_ [_ Hless]].
    rewrite (filter_none _ _ Hnone) in Hless. apply Hless. cbn. lia.
Qed.

End Listing.

(** ** Slug resolution *)

Section SlugResolution.

Lemma length_append (s1 s2 : string) :
  String.length (s1 ++ s2) = (String.length s1 + String.length s2)%nat.
Proof.
  induction s1 as [|a s1 IH]; cbn; [reflexivity|]. rewrite IH. reflexivity.
Qed.

Lemma append_inj_l (s s1 s2 : string) : s ++ s1 = s ++ s2 -> s1 = s2.
Proof.
  induction s as [|a s IH]; cbn; [auto|].
  intros H. injection H as H. auto.
Qed.

Lemma decimal_inj (a b : nat) : decimal a = decimal b -> a = b.
Proof.
  unfold decimal. intros H.
  apply (f_equal NilEmpty.uint_of_string) in H.
  rewrite !NilEmpty.usu in H. injection H as H.
  apply (f_equal Nat.of_uint) in H.
  rewrite !Unsigned.of_to in H. exact H.
Qed.

(** The probes of one candidate are pairwise different strings. *)
Lemma probeAt_inj (c : string) (i j : nat) :
  probeAt c i = probeAt c j -> i = j.
Proof.
  destruct i as [|i], j as [|j]; cbn [probeAt]; intros H.
  - reflexivity.
  - apply (f_equal String.length) in H. rewrite length_append in H.
    cbn in H. lia.
  - apply (f_equal String.length) in H. rewrite length_append in H.
    cbn in H. lia.
  - apply append_inj_l in H. cbn in H. injection H as H.
    apply decimal_inj. exact H.
Qed.

(** The loop, started at probe [j], stops at the first free probe from
    [j] on, provided one lies within the fuel. *)
Lemma slugLoop_first_free (ds : list Blog) (c : string) (fuel j : nat) :
  (exists k, (j <= k < j + fuel)%nat /\ findOne (probeAt c k) ds = None) ->
  exists k, (j <= k < j + fuel)%nat /\
            slugLoop fuel ds c (probeAt c j) (S j) = Some (probeAt c k) /\
            findOne (probeAt c k) ds = None /\
            forall i, (j <= i < k)%nat -> findOne (probeAt c i) ds <> None.
Proof.
  revert j. induction fuel as [|fuel IH]; intros j [k [Hk Hfree]]; [lia|].
  cbn [slugLoop]. destruct (findOne (probeAt c j) ds) as [b|] eqn:Hj.
  - destruct (IH (S j)) as [k' [Hk' [Hloop [Hfree' Hmin]]]].
    + exists k. split; [|exact Hfree].
      assert (k <> j) by (intros ->; congruence). lia.
    + exists k'. repeat split; try lia; try assumption.
      intros i Hi. destruct (Nat.eq_dec i j) as [-> | Hne].
      * congruence.
      * apply Hmin. lia.
  - exists j. repeat split; try lia; try assumption.
Qed.

Lemma free_probe_search (ds : list Blog) (c : string) (m : nat) :
  (forall k, (k < m)%nat -> findOne (probeAt c k) ds <> None) \/
  (exists k, (k < m)%nat /\ findOne (probeAt c k) ds = None).
Proof.
  induction m as [|m [IH | [k [Hk Hf]]]].
  - left. intros k Hk. lia.
  - destruct (findOne (probeAt c m) ds) eqn:E.
    + left. intros k Hk. destruct (Nat.eq_dec k m) as [-> | Hne].
      * congruence.
      * apply IH. lia.
    + right. exists m. split; [lia | exact E].
  - right. exists k. split; [lia | exact Hf].
Qed.

(** Pigeonhole: among the first [length ds + 1] probes one is free. *)
Lemma free_probe_exists (ds : list Blog) (c : string) :
  exists k, (k < S (List.length ds))%nat /\ findOne (probeAt c k) ds = None.
Proof.
  destruct (free_probe_search ds c (S (List.length ds))) as [Hall | H];
    [exfalso | exact H].
  assert (Hnd : NoDup (map (probeAt c) (seq 0 (S (List.length ds))))).
  { apply NoDup_map_NoDup_ForallPairs; [|apply seq_NoDup].
    intros x y _ _. apply probeAt_inj. }
  assert (Hincl : incl (map (probeAt c) (seq 0 (S (List.length ds))))
                       (map slug ds)).
  { intros s Hs. apply in_map_iff in Hs. destruct Hs as [k [<- Hk]].
    apply in_seq in Hk.
    destruct (findOne (probeAt c k) ds) as [b|] eqn:E.
    - apply findOne_Some in E. destruct E as [Hb <-].
      apply in_map. exact Hb.
    - exfalso. apply (Hall k); [lia | exact E]. }
  pose proof (NoDup_incl_length Hnd Hincl) as Hlen.
  rewrite !length_map, length_seq in Hlen. lia.
Qed.

(** C6: for every candidate [c], the empty string included, and every
    collection, slug resolution returns a slug: [c] itself when no article
    has it, and otherwise [c-k] for the smallest [k >= 1] that no article
    has, every earlier probe [c], [c-1], ... being taken; no stored article
    has the returned slug. *)
Theorem resolveSlug_first_free (ds : list Blog) (c : string) :
  exists k,
    resolveSlug ds c = Some (probeAt c k) /\
    (forall b, In b ds -> slug b <> probeAt c k) /\
    (forall i, (i < k)%nat -> exists b, In b ds /\ slug b = probeAt c i) /\
    ((forall b, In b ds -> slug b <> c) -> k = 0%nat /\ probeAt c k = c) /\
    ((exists b, In b ds /\ slug b = c) ->
     (1 <= k)%nat /\ probeAt c k = c ++ "-" ++ decimal k).
Proof.
  destruct (free_probe_exists ds c) as [k0 [Hk0 Hfree0]].
  destruct (slugLoop_first_free ds c (S (List.length ds)) 0)
    as [k [Hk [Hloop [Hfree Hmin]]]].
  { exists k0. split; [lia | exact Hfree0]. }
  assert (Htaken : forall i, (i < k)%nat ->
                             exists b, In b ds /\ slug b = probeAt c i).
  { intros i Hi. destruct (findOne (probeAt c i) ds) as [b|] eqn:E.
    - exists b. apply findOne_Some. exact E.
    - exfalso. apply (Hmin i); [lia | exact E]. }
  exists k. repeat match goal with |- _ /\ _ => split end.
  - exact Hloop.
  - apply findOne_None. exact Hfree.
  - exact Htaken.
  - intros H. destruct k as [|k]; [split; reflexivity|].
    exfalso. destruct (Htaken 0%nat) as [b [Hb E]]; [lia|].
    exact (H b Hb E).
  - intros [b [Hb E]]. destruct k as [|k]; [|split; [lia | reflexivity]].
    exfalso. apply (proj1 (findOne_None _ _) Hfree b Hb). exact E.
Qed.

End SlugResolution.

(** ** Cursor chaining over the whole feed *)

Section Pagination.

Lemma filter_all {A : Type} (p : A -> bool) (l : list A) :
  (forall x, In x l -> p x = true) -> filter p l = l.
Proof.
  induction l as [|y l IH]; intros H; [reflexivity|].
  cbn. rewrite (H y (or_introl eq_refl)). f_equal. apply IH.
  intros x Hx. apply H. right. exact Hx.
Qed.

Lemma pageItems_cons (p : list BlogItem * option Z)
      (ps : list (list BlogItem * option Z)) :
  pageItems (p :: ps) = (fst p ++ pageItems ps)%list.
Proof. reflexivity. Qed.

Lemma lastItem_split {A : Type} (l : list A) (x : A) :
  lastItem l = Some x -> exists pre, l = (pre ++ [x])%list.
Proof.
  induction l as [|y [|z l] IH]; intros H; [discriminate | |].
  - injection H as ->. exists []. reflexivity.
  - destruct (IH H) as [pre E]. exists (y :: pre). rewrite E. reflexivity.
Qed.

Lemma sorted_app_inv (l1 l2 : list Blog) :
  StronglySorted descOrder (l1 ++ l2) ->
  StronglySorted descOrder l2 /\
  forall a b, In a l1 -> In b l2 -> descOrder a b.
Proof.
  induction l1 as [|y l1 IH]; cbn; intros Hs.
  - split; [exact Hs | intros a b []].
  - inversion Hs as [|? ? Hs' Hall]; subst.
    destruct (IH Hs') as [H2 Hcross]. split; [exact H2|].
    intros a b [<- | Ha] Hb; [|auto].
    rewrite Forall_forall in Hall. apply Hall. apply in_or_app. right. exact Hb.
Qed.

(** The matches of a cursor taken from an article of the dated, sorted
    (feed st) are the articles after it, when dates are pairwise different. *)
Lemma cursor_matches_rest (pre rest : list Blog) (x : Blog) (t : Z) :
  StronglySorted descOrder (pre ++ x :: rest) ->
  NoDup (map publishedAt (pre ++ x :: rest)) ->
  (forall b, In b (pre ++ x :: rest) -> hasDate b = true) ->
  publishedAt x = Some t ->
  filter (cursorQuery (Some t)) (pre ++ x :: rest) = rest.
Proof.
  intros Hs Hnd Hdated Hx.
  destruct (sorted_app_inv pre (x :: rest) Hs) as [Hs2 Hcross].
  inversion Hs2 as [|? ? _ Hall]; subst. rewrite Forall_forall in Hall.
  rewrite filter_app. cbn [filter].
  rewrite (filter_none _ pre).
  - cbn [cursorQuery]. rewrite Hx, Z.ltb_irrefl. cbn [app].
    apply filter_all. intros z Hz.
    pose proof (Hall z Hz) as Hle. unfold descOrder in Hle. rewrite Hx in Hle.
    assert (Hdz : hasDate z = true).
    { apply Hdated. apply in_or_app. right. right. exact Hz. }
    unfold hasDate in Hdz.
    destruct (publishedAt z) as [tz|] eqn:Ez; [|discriminate].
    cbn in Hle. apply Z.leb_le in Hle.
    cbn [cursorQuery]. rewrite Ez. apply Z.ltb_lt.
    assert (tz <> t); [|lia]. intros ->.
    rewrite map_app in Hnd. cbn [map] in Hnd.
    apply NoDup_remove_2 in Hnd. apply Hnd.
    apply in_or_app. right. rewrite Hx, <- Ez. apply in_map. exact Hz.
  - intros y Hy. cbn [cursorQuery].
    pose proof (Hcross y x Hy (or_introl eq_refl)) as Hle.
    unfold descOrder in Hle. rewrite Hx in Hle.
    destruct (publishedAt y) as [ty|]; [|reflexivity].
    cbn in Hle. apply Z.leb_le in Hle. apply Z.ltb_ge. exact Hle.
Qed.

Lemma feed_strictly_decreasing (l : list Blog) :
  StronglySorted descOrder l -> NoDup (map publishedAt l) ->
  (forall b, In b l -> hasDate b = true) ->
  StronglySorted laterThan (map select l).
Proof.
  induction l as [|d l IH]; cbn [map]; intros Hs Hnd Hdated; [constructor|].
  inversion Hs as [|? ? Hs' Hall]; subst.
  inversion Hnd as [|? ? Hnin Hnd']; subst.
  constructor.
  - apply IH; try assumption. intros b Hb. apply Hdated. right. exact Hb.
  - rewrite Forall_forall in *. intros it Hit.
    apply in_map_iff in Hit. destruct Hit as [b [<- Hb]].
    unfold laterThan. cbn.
    pose proof (Hall b Hb) as Hle. unfold descOrder in Hle.
    pose proof (Hdated d (or_introl eq_refl)) as Hd.
    pose proof (Hdated b (or_intror Hb)) as Hdb.
    unfold hasDate in Hd, Hdb.
    destruct (publishedAt d) as [td|] eqn:Ed; [|discriminate].
    destruct (publishedAt b) as [tb|] eqn:Eb; [|discriminate].
    cbn in Hle. apply Z.leb_le in Hle.
    assert (tb <> td); [|lia]. intros ->.
    apply Hnin. rewrite <- Eb. apply in_map. exact Hb.
Qed.

Variable st : Store.
Variable L : nat.
Hypothesis L_positive : (1 <= L)%nat.
Hypothesis distinct_dates :
  NoDup (map publishedAt (filter hasDate (docs st))).

Lemma feed_dated (b : Blog) : In b (feed st) -> hasDate b = true.
Proof.
  unfold feed. intros H. apply sortDesc_In, filter_In in H. tauto.
Qed.

Lemma feed_distinct : NoDup (map publishedAt (feed st)).
Proof.
  unfold feed. eapply Permutation_NoDup; [|exact distinct_dates].
  apply Permutation_map. symmetry. apply sortDesc_perm.
Qed.

Lemma all_sorted_split :
  sortDesc (docs st) =
  ((feed st) ++ filter (fun b => negb (hasDate b)) (sortDesc (docs st)))%list.
Proof.
  unfold feed. rewrite sortDesc_filter.
  apply sorted_dated_first, sortDesc_sorted.
Qed.

Lemma limitOf_nat : limitOf (Some (Z.of_nat L)) = Z.of_nat L.
Proof.
  cbn. destruct (Z.of_nat L =? 0)%Z eqn:E; [|reflexivity].
  apply Z.eqb_eq in E. lia.
Qed.

(** The matches of the first request start with the (feed st). *)
Lemma first_matches :
  sortDesc (filter (cursorQuery None) (docs st)) =
  ((feed st) ++ filter (fun b => negb (hasDate b)) (sortDesc (docs st)))%list.
Proof.
  rewrite filter_all by reflexivity. apply all_sorted_split.
Qed.

(** The matches of a request whose cursor is the date of a (feed st) article
    are the (feed st) after that article. *)
Lemma cursor_matches (pre rest : list Blog) (x : Blog) (t : Z) :
  (feed st) = (pre ++ x :: rest)%list -> publishedAt x = Some t ->
  sortDesc (filter (cursorQuery (Some t)) (docs st)) = rest.
Proof.
  intros Hfeed Hx. rewrite sortDesc_filter, all_sorted_split, filter_app.
  rewrite (filter_none _ (filter _ (sortDesc (docs st)))).
  - rewrite app_nil_r, Hfeed.
    apply cursor_matches_rest; try assumption; rewrite <- Hfeed.
    + apply sortDesc_sorted.
    + apply feed_distinct.
    + apply feed_dated.
  - intros b Hb. apply filter_In in Hb. destruct Hb as [_ Hb].
    unfold hasDate in Hb. cbn. destruct (publishedAt b); [discriminate | reflexivity].
Qed.

(** Following the cursor from a (feed st) article [x] collects the rest of the
    (feed st), page by page. *)
Lemma paginate_rest (fuel : nat) :
  forall (pre rest : list Blog) (x : Blog) (t : Z),
    (feed st) = (pre ++ x :: rest)%list -> publishedAt x = Some t ->
    rest <> [] -> (List.length rest < fuel)%nat ->
    exists init items,
      paginate fuel (Some (Z.of_nat L)) (Some t) st =
        Some (init ++ [(items, None)])%list /\
      pageItems (init ++ [(items, None)]) = map select rest /\
      Forall (fun p => (List.length (fst p) = L /\ snd p <> None)) init /\
      ((exists q, List.length rest = q * L)%nat -> List.length items = L).
Proof.
  induction fuel as [|fuel IH]; intros pre rest x t Hfeed Hx Hne Hlen; [lia|].
  pose proof (getAllBlogs_page (Some (Z.of_nat L)) (Some t) st) as Hpage.
  rewrite limitOf_nat, Nat2Z.id, (cursor_matches pre rest x t Hfeed Hx) in Hpage.
  destruct Hpage as [_ [Hmore Hless]]; [lia|].
  cbn [paginate].
  destruct (Nat.lt_ge_cases L (List.length rest)) as [Hlt | Hge].
  - destruct (Hmore Hlt) as [l [Hl ->]].
    destruct (lastItem_split _ _ Hl) as [pre' Epre].
    assert (Hsplit : rest = (pre' ++ l :: skipn L rest)%list).
    { rewrite <- (firstn_skipn L rest) at 1. rewrite Epre, <- app_assoc.
      reflexivity. }
    assert (Hfeed' : (feed st) = ((pre ++ x :: pre') ++ l :: skipn L rest)%list).
    { rewrite Hfeed, Hsplit at 1. rewrite <- app_assoc. reflexivity. }
    assert (Hdl : hasDate l = true).
    { apply feed_dated. rewrite Hfeed'. apply in_or_app. right. left.
      reflexivity. }
    unfold hasDate in Hdl. destruct (publishedAt l) as [t'|] eqn:El;
      [|discriminate].
    destruct (IH (pre ++ x :: pre')%list (skipn L rest) l t' Hfeed' El)
      as [init [items [Hpag [Hitems [Hinit Hmult]]]]].
    + intros E. apply (f_equal (@List.length Blog)) in E.
      rewrite length_skipn in E. cbn in E. lia.
    + rewrite length_skipn. lia.
    + exists ((map select (firstn L rest), Some t') :: init), items.
      rewrite Hpag. repeat match goal with |- _ /\ _ => split end.
      * reflexivity.
      * rewrite <- app_comm_cons, pageItems_cons. cbn [fst].
        rewrite Hitems, <- map_app, firstn_skipn. reflexivity.
      * constructor; [|exact Hinit]. cbn [fst snd].
        rewrite length_map, length_firstn. split; [lia | discriminate].
      * intros [q Hq]. apply Hmult. rewrite length_skipn.
        destruct q as [|q]; [cbn in Hq; lia|].
        exists q. rewrite Hq. cbn. lia.
  - rewrite (Hless Hge). exists [], (map select rest).
    repeat match goal with |- _ /\ _ => split end.
    + reflexivity.
    + unfold pageItems. cbn. apply app_nil_r.
    + constructor.
    + intros [q Hq]. rewrite length_map.
      destruct rest as [|r rest]; [contradiction|]. cbn [List.length] in *.
      destruct q as [|[|q]]; cbn in Hq; nia.
Qed.

(** C4, for articles with pairwise different publication dates: when the
    [M] stored articles that carry a [publishedAt] have pairwise different
    dates and the page size [L] satisfies [1 <= L < M], a reader that
    chains [nextCursor] until it is null (at most [M + 1] requests)
    receives exactly those [M] articles, newest first, strictly decreasing
    by [publishedAt], none twice and none left out; every page before the
    last has [L] items and a cursor, the last has none, and when [M] is a
    multiple of [L] the last page has exactly [L] items. *)
Theorem cursor_chaining_covers_feed (fuel : nat) :
  (L < List.length (feed st))%nat -> (List.length (feed st) < fuel)%nat ->
  exists init items,
    paginate fuel (Some (Z.of_nat L)) None st =
      Some (init ++ [(items, None)])%list /\
    pageItems (init ++ [(items, None)]) = map select (feed st) /\
    Permutation (feed st) (filter hasDate (docs st)) /\
    List.length (pageItems (init ++ [(items, None)])) =
      List.length (filter hasDate (docs st)) /\
    StronglySorted laterThan (pageItems (init ++ [(items, None)])) /\
    NoDup (pageItems (init ++ [(items, None)])) /\
    Forall (fun p => (List.length (fst p) = L /\ snd p <> None)) init /\
    ((exists q, List.length (feed st) = q * L)%nat -> List.length items = L).
Proof.
  intros HL Hfuel. destruct fuel as [|fuel]; [lia|].
  pose proof (getAllBlogs_page (Some (Z.of_nat L)) None st) as Hpage.
  rewrite limitOf_nat, Nat2Z.id, first_matches in Hpage.
  destruct Hpage as [_ [Hmore _]]; [lia|].
  destruct Hmore as [l [Hl Hresp]]; [rewrite length_app; lia|].
  rewrite firstn_app in Hl, Hresp.
  replace (L - List.length (feed st))%nat with 0%nat in Hl, Hresp by lia.
  rewrite firstn_O, app_nil_r in Hl, Hresp.
  destruct (lastItem_split _ _ Hl) as [pre Epre].
  assert (Hfeed : (feed st) = (pre ++ l :: skipn L (feed st))%list).
  { rewrite <- (firstn_skipn L (feed st)) at 1. rewrite Epre, <- app_assoc.
    reflexivity. }
  assert (Hdl : hasDate l = true).
  { apply feed_dated. rewrite Hfeed. apply in_or_app. right. left.
    reflexivity. }
  unfold hasDate in Hdl. destruct (publishedAt l) as [t|] eqn:El;
    [|discriminate].
  destruct (paginate_rest fuel pre (skipn L (feed st)) l t Hfeed El)
    as [init [items [Hpag [Hitems [Hinit Hmult]]]]].
  { intros E. apply (f_equal (@List.length Blog)) in E.
    rewrite length_skipn in E. cbn in E. lia. }
  { rewrite length_skipn. lia. }
  exists ((map select (firstn L (feed st)), Some t) :: init), items.
  assert (Hall : pageItems (((map select (firstn L (feed st)), Some t) :: init)
                              ++ [(items, None)]) = map select (feed st)).
  { rewrite <- app_comm_cons, pageItems_cons. cbn [fst].
    rewrite Hitems, <- map_app, firstn_skipn. reflexivity. }
  rewrite Hall. cbn [paginate]. rewrite Hresp, Hpag.
  repeat match goal with |- _ /\ _ => split end.
  - reflexivity.
  - reflexivity.
  - apply sortDesc_perm.
  - rewrite length_map. apply sortDesc_length.
  - apply feed_strictly_decreasing.
    + apply sortDesc_sorted.
    + apply feed_distinct.
    + apply feed_dated.
  - apply (NoDup_map_inv item_publishedAt). rewrite map_map.
    apply feed_distinct.
  - constructor; [|exact Hinit]. cbn [fst snd].
    rewrite length_map, length_firstn. split; [lia | discriminate].
  - intros [q Hq]. apply Hmult. rewrite length_skipn.
    destruct q as [|q]; [cbn in Hq; lia|].
    exists q. rewrite Hq. cbn. lia.
Qed.

End Pagination.

(** ** Slugs identify articles *)

Section SlugUniqueness.

Variable generateSlug : string -> string.

Lemma slugLoop_free (fuel : nat) (ds : list Blog) (c s0 s : string) (k : nat) :
  slugLoop fuel ds c s0 k = Some s -> findOne s ds = None.
Proof.
  revert s0 k. induction fuel as [|fuel IH]; intros s0 k; cbn; [discriminate|].
  destruct (findOne s0 ds) eqn:E.
  - apply IH.
  - intros H. injection H as <-. exact E.
Qed.

(** With a title, a content and an acting identity the create handler
    always answers 201, and the slug of the new article is not the slug of
    any stored one. *)
Lemma postBlog_created (now : Z) (authorId title0 content0 : string)
      (body : Body) (st : Store) :
  body_title body = Some title0 -> title0 <> "" ->
  body_content body = Some content0 -> content0 <> "" ->
  authorId <> "" ->
  exists b,
    postBlog generateSlug now (Some authorId) body st =
    (mkResponse 201 (OneBlog b), mkStore (docs st ++ [b]) (S (nextId st))) /\
    author b = authorId /\ _id b = nextId st /\
    forall d, In d (docs st) -> slug d <> slug b.
Proof.
  intros Ht Ht0 Hc Hc0 Ha. unfold postBlog. rewrite Ht, Hc.
  apply String.eqb_neq in Ht0, Hc0. rewrite Ht0, Hc0. cbn [orb].
  unfold truthy. apply String.eqb_neq in Ha. rewrite Ha. cbn [negb].
  destruct (free_probe_exists (docs st) (generateSlug title0)) as [k0 [Hk0 Hf0]].
  destruct (slugLoop_first_free (docs st) (generateSlug title0)
                                (S (List.length (docs st))) 0)
    as [k [_ [Hloop [Hfree _]]]].
  { exists k0. split; [lia | exact Hf0]. }
  unfold resolveSlug. cbn [probeAt] in Hloop. rewrite Hloop.
  eexists. split; [reflexivity|]. cbn.
  repeat split. apply findOne_None. exact Hfree.
Qed.

Lemma save_slugs (u A : Blog) (ds : list Blog) :
  NoDup (map _id ds) -> In A ds -> _id u = _id A -> slug u = slug A ->
  map slug (save u ds) = map slug ds.
Proof.
  intros Hnd HA Hid Hslug. unfold save. rewrite map_map.
  apply map_ext_in. intros d Hd.
  destruct (_id d =? _id u)%nat eqn:E; [|reflexivity].
  apply Nat.eqb_eq in E.
  assert (d = A) as ->; [|exact Hslug].
  apply (NoDup_map_In_eq _id ds); [assumption | assumption | assumption | congruence].
Qed.

Lemma step_slugs (st st' : Store) :
  step generateSlug st st' -> wellFormed st ->
  NoDup (map slug (docs st)) -> NoDup (map slug (docs st')).
Proof.
  intros Hstep [Hids _] Hnd. destruct Hstep.
  - unfold postBlog.
    destruct (body_title body) as [t|]; [|exact Hnd].
    destruct (body_content body) as [c|]; [|exact Hnd].
    destruct ((t =? "") || (c =? "")); [exact Hnd|].
    destruct (negb (truthy user)); [exact Hnd|].
    destruct user as [a|]; [|exact Hnd].
    destruct (resolveSlug (docs st) (generateSlug t)) as [s|] eqn:Hs;
      [|exact Hnd].
    cbn [snd docs]. rewrite map_app. cbn [map slug].
    apply slugLoop_free in Hs.
    apply NoDup_rev in Hnd.
    rewrite <- (rev_involutive (map slug (docs st) ++ [s])).
    apply NoDup_rev. rewrite rev_app_distr. cbn [rev app].
    constructor; [|exact Hnd].
    rewrite <- in_rev, in_map_iff. intros [x [Ex Hx]].
    exact (proj1 (findOne_None _ _) Hs x Hx Ex).
  - destruct (update_docs generateSlug now slugParam user body st)
      as [E | [A [HA E]]]; rewrite E; [exact Hnd|].
    cbn [docs]. rewrite (save_slugs _ A); auto.
  - destruct (delete_docs slugParam user st) as [E | [A [HA E]]];
      rewrite E; [exact Hnd|].
    cbn [docs]. apply deleteOne_NoDup_map. exact Hnd.
Qed.

Lemma reachable_slugs (st : Store) :
  reachable generateSlug st -> NoDup (map slug (docs st)).
Proof.
  unfold reachable. intros Hr.
  assert (H : wellFormed st /\ NoDup (map slug (docs st))); [|tauto].
  remember emptyStore as st0 eqn:E0.
  induction Hr as [st | st1 st2 st3 Hsteps IH Hstep]; subst.
  - split; [split|]; cbn; constructor.
  - destruct (IH eq_refl) as [Hwf Hnd]. split.
    + apply (step_publishedAt generateSlug st2 st3 Hstep Hwf).
    + apply (step_slugs st2 st3 Hstep Hwf Hnd).
Qed.

(** In a reachable store the lookup by slug finds each article under its
    own slug. *)
Lemma reachable_findOne (st : Store) (A : Blog) :
  reachable generateSlug st -> In A (docs st) ->
  findOne (slug A) (docs st) = Some A.
Proof.
  intros Hr. apply reachable_slugs in Hr. unfold findOne.
  induction (docs st) as [|d ds IH]; cbn; [intros []|].
  inversion Hr as [|? ? Hnin Hnd]; subst.
  intros [-> | HA].
  - rewrite String.eqb_refl. reflexivity.
  - destruct (slug d =? slug A) eqn:E.
    + apply String.eqb_eq in E. exfalso. apply Hnin. rewrite E.
      apply in_map. exact HA.
    + apply IH; assumption.
Qed.

End SlugUniqueness.

(** * The handlers on concrete requests *)

Lemma draftStore_reachable : reachable generateSlugModel draftStore.
Proof.
  eapply steps_next; [apply steps_refl|].
  exact (step_post generateSlugModel 1000 (Some "u1") (helloBody (Some false))
                   emptyStore).
Defined.

Lemma republishedStore_steps : steps generateSlugModel draftStore republishedStore.
Proof.
  eapply steps_next; [apply steps_refl|].
  exact (step_update generateSlugModel 2000 "hello-world" (Some "u1")
                     emptyPatch draftStore).
Defined.

Lemma republishedStore_reachable : reachable generateSlugModel republishedStore.
Proof.
  eapply steps_next; [exact draftStore_reachable|].
  exact (step_update generateSlugModel 2000 "hello-world" (Some "u1")
                     emptyPatch draftStore).
Defined.

Lemma tieStore_reachable : reachable generateSlugModel tieStore.
Proof.
  eapply steps_next; [eapply steps_next; [apply steps_refl|]|].
  - exact (step_post generateSlugModel 1000 (Some "u1") (helloBody None)
                     emptyStore).
  - exact (step_post generateSlugModel 1000 (Some "u2") (helloBody None) _).
Defined.

Lemma lateStore_reachable : reachable generateSlugModel lateStore.
Proof.
  eapply steps_next;
    [eapply steps_next; [eapply steps_next; [apply steps_refl|]|]|].
  - exact (step_post generateSlugModel 1000 (Some "u1") (helloBody None)
                     emptyStore).
  - exact (step_post generateSlugModel 2000 (Some "u2") (helloBody (Some false)) _).
  - exact (step_update generateSlugModel 3000 "hello-world-1" (Some "u2")
                       emptyPatch _).
Defined.

Example generateSlug_hello : generateSlugModel "Hello World!!" = "hello-world".
Proof. reflexivity. Qed.

Example resolve_hello_three :
  resolveSlug (docs threeStore) "hello-world" = Some "hello-world-3".
Proof. reflexivity. Qed.

Example resolve_empty_candidate :
  resolveSlug [mkBlog 7 "!!" "text" None "" "u1" [] (Some true) false (Some 5%Z) 5 5] ""
  = Some "-1".
Proof. reflexivity. Qed.

(** ** C1 *)

(** A draft published through an update is a reachable article with
    [isPublished = true] and a null [publishedAt]. *)
Lemma published_without_date :
  reachable generateSlugModel republishedStore /\
  exists b, In b (docs republishedStore) /\
            isPublished b = Some true /\ publishedAt b = None.
Proof.
  split; [exact republishedStore_reachable|].
  eexists. split; [left; reflexivity|]. split; reflexivity.
Qed.

Lemma publishedAt_written_at_creation_only_witness :
  reachable generateSlugModel draftStore /\
  steps generateSlugModel draftStore republishedStore /\
  In draftBlog (docs draftStore) /\
  forall b', In b' (docs republishedStore) -> _id b' = _id draftBlog ->
             publishedAt b' = publishedAt draftBlog.
Proof.
  split; [exact draftStore_reachable|].
  split; [exact republishedStore_steps|].
  split; [left; reflexivity|].
  intros b' Hb' Hid.
  apply (proj2 (proj2 (publishedAt_written_at_creation_only generateSlugModel))
               draftStore republishedStore draftBlog b').
  - exact draftStore_reachable.
  - exact republishedStore_steps.
  - left. reflexivity.
  - exact Hb'.
  - exact Hid.
Defined.

(** ** C2 *)

(** An update that carries only [imageUrl] turns the stored draft into a
    published article. *)
Lemma imageOnly_update_publishes_draft :
  findOne "hello-world" (docs draftStore) = Some draftBlog /\
  author draftBlog = "u1" /\
  body_isPublished imageOnly = None /\
  isPublished draftBlog = Some false /\ isDraft draftBlog = true /\
  exists A',
    fst (updateBlogController generateSlugModel 2000 "hello-world" (Some "u1")
                              imageOnly draftStore) =
    mkResponse 200 (OneBlog A') /\
    isPublished A' = Some true /\ isDraft A' = false.
Proof.
  repeat (split; [reflexivity|]).
  eexists. split; [reflexivity|]. split; reflexivity.
Qed.

Lemma partial_update_witness :
  "hello-world" <> "" /\ "u1" <> "" /\
  findOne "hello-world" (docs draftStore) = Some draftBlog /\
  author draftBlog = "u1" /\
  exists A',
    updateBlogController generateSlugModel 2000 "hello-world" (Some "u1")
                         imageOnly draftStore =
    (mkResponse 200 (OneBlog A'),
     mkStore (save A' (docs draftStore)) (nextId draftStore)) /\
    title A' = title draftBlog /\ slug A' = slug draftBlog /\
    updatedAt A' = 2000%Z /\ isPublished A' = Some true /\ isDraft A' = false.
Proof.
  assert (H1 : "hello-world" <> "") by discriminate.
  assert (H2 : "u1" <> "") by discriminate.
  assert (H3 : findOne "hello-world" (docs draftStore) = Some draftBlog)
    by reflexivity.
  assert (H4 : author draftBlog = "u1") by reflexivity.
  repeat (split; [assumption|]).
  destruct (partial_update generateSlugModel 2000 "hello-world" "u1" imageOnly
                           draftStore draftBlog H1 H2 H3 H4)
    as [A' [Hupd [Ht [_ [_ [_ [_ [_ [_ [_ [_ [_ [_ [Hp [Hu [Hs _]]]]]]]]]]]]]]]].
  exists A'. split; [exact Hupd|].
  split; [apply Ht; reflexivity|].
  split; [exact Hs|]. split; [exact Hu | apply Hp; reflexivity].
Defined.

(** ** C3 *)

(** The public listing of a store that holds one draft returns it. *)
Lemma draft_in_public_listing :
  reachable generateSlugModel draftStore /\
  docs draftStore = [draftBlog] /\
  isPublished draftBlog = Some false /\
  getAllBlogs None None draftStore =
  mkResponse 200 (Page [select draftBlog] None).
Proof.
  split; [exact draftStore_reachable|].
  repeat split; reflexivity.
Qed.

Lemma listing_items_match_cursor_witness :
  getAllBlogs (Some 2%Z) (Some 3000%Z) threeStore =
  mkResponse 200 (Page [mkItem 1 "Hello World!!" "u2" (Some 2000%Z) "hello-world-1";
                        mkItem 0 "Hello World!!" "u1" (Some 1000%Z) "hello-world"]
                       None) /\
  exists b, In b (docs threeStore) /\
            select b = mkItem 0 "Hello World!!" "u1" (Some 1000%Z) "hello-world" /\
            exists t, publishedAt b = Some t /\ (t < 3000)%Z.
Proof.
  assert (H : getAllBlogs (Some 2%Z) (Some 3000%Z) threeStore =
              mkResponse 200
                (Page [mkItem 1 "Hello World!!" "u2" (Some 2000%Z) "hello-world-1";
                       mkItem 0 "Hello World!!" "u1" (Some 1000%Z) "hello-world"]
                      None)) by reflexivity.
  split; [exact H|].
  apply (listing_items_match_cursor (Some 2%Z) (Some 3000%Z) threeStore 200 _ _ H).
  right. left. reflexivity.
Defined.

(** ** C4 *)

(** Two failures of cursor chaining with page size 1 over two published
    articles: with equal dates the second article is never listed, and an
    article published through an update (null [publishedAt]) is never
    listed either. *)
Lemma cursor_chaining_loses_articles :
  (reachable generateSlugModel tieStore /\
   Forall (fun b => isPublished b = Some true) (docs tieStore) /\
   List.length (docs tieStore) = 2%nat /\
   paginate 2 (Some 1%Z) None tieStore =
   Some [([mkItem 0 "Hello World!!" "u1" (Some 1000%Z) "hello-world"],
          Some 1000%Z); ([], None)] /\
   forall fuel pages, paginate fuel (Some 1%Z) None tieStore = Some pages ->
                      List.length (pageItems pages) = 1%nat) /\
  (reachable generateSlugModel lateStore /\
   Forall (fun b => isPublished b = Some true) (docs lateStore) /\
   List.length (docs lateStore) = 2%nat /\
   forall fuel pages, paginate fuel (Some 1%Z) None lateStore = Some pages ->
                      List.length (pageItems pages) = 1%nat).
Proof.
  split.
  - split; [exact tieStore_reachable|].
    split; [repeat constructor|]. split; [reflexivity|].
    split; [reflexivity|].
    intros fuel pages. destruct fuel as [|[|fuel]]; [discriminate | discriminate|].
    vm_compute. intros H. injection H as <-. reflexivity.
  - split; [exact lateStore_reachable|].
    split; [repeat constructor|]. split; [reflexivity|].
    intros fuel pages. destruct fuel as [|[|fuel]]; [discriminate | discriminate|].
    vm_compute. intros H. injection H as <-. reflexivity.
Qed.

Lemma cursor_chaining_covers_feed_witness :
  (1 <= 1)%nat /\
  NoDup (map publishedAt (filter hasDate (docs threeStore))) /\
  (1 < List.length (sortDesc (filter hasDate (docs threeStore))))%nat /\
  (List.length (sortDesc (filter hasDate (docs threeStore))) < 4)%nat /\
  exists init items,
    paginate 4 (Some 1%Z) None threeStore = Some (init ++ [(items, None)])%list /\
    pageItems (init ++ [(items, None)]) =
      map select (sortDesc (filter hasDate (docs threeStore))) /\
    List.length (pageItems (init ++ [(items, None)])) = 3%nat /\
    List.length items = 1%nat.
Proof.
  assert (H1 : (1 <= 1)%nat) by lia.
  assert (H2 : NoDup (map publishedAt (filter hasDate (docs threeStore)))).
  { vm_compute. repeat (constructor; [cbn; intuition discriminate|]). constructor. }
  assert (H3 : (1 < List.length (sortDesc (filter hasDate (docs threeStore))))%nat)
    by (vm_compute; lia).
  assert (H4 : (List.length (sortDesc (filter hasDate (docs threeStore))) < 4)%nat)
    by (vm_compute; lia).
  repeat (split; [assumption|]).
  destruct (cursor_chaining_covers_feed threeStore 1 H1 H2 4 H3 H4)
    as [init [items [Hp [Hi [_ [Hl [_ [_ [_ Hm]]]]]]]]].
  exists init, items. split; [exact Hp|]. split; [exact Hi|].
  split; [exact Hl|]. apply Hm. exists 3%nat. reflexivity.
Defined.

(** ** C5 *)

(** C5 at a negative limit: [parseInt("-1") || 10] is [-1], and every count
    exceeds it.  On an empty collection the handler answers 500; on three
    articles the driver is asked for [limit + 1 = 0] documents, that is for
    all of them, and the page is the first two.  The page-boundary rule
    (truncate to [limit] items with the last date as cursor, or return
    everything without a cursor) holds in neither case. *)
Lemma negative_limit_breaks_page_rule :
  limitOf (Some (-1)%Z) = (-1)%Z /\
  (fetchPage (limitOf (Some (-1)%Z)) None (docs emptyStore) = [] /\
   getAllBlogs (Some (-1)%Z) None emptyStore = mkResponse 500 Message /\
   ~ pageRule (limitOf (Some (-1)%Z))
              (fetchPage (limitOf (Some (-1)%Z)) None (docs emptyStore))
              (getAllBlogs (Some (-1)%Z) None emptyStore)) /\
  (List.length (fetchPage (limitOf (Some (-1)%Z)) None (docs threeStore)) = 3%nat /\
   getAllBlogs (Some (-1)%Z) None threeStore =
   mkResponse 200
     (Page [mkItem 2 "Hello World!!" "u1" (Some 3000%Z) "hello-world-2";
            mkItem 1 "Hello World!!" "u2" (Some 2000%Z) "hello-world-1"]
           (Some 2000%Z)) /\
   ~ pageRule (limitOf (Some (-1)%Z))
              (fetchPage (limitOf (Some (-1)%Z)) None (docs threeStore))
              (getAllBlogs (Some (-1)%Z) None threeStore)).
Proof.
  split; [reflexivity|]. split.
  - repeat (split; [reflexivity|]).
    intros [Hmore _]. destruct Hmore as [l [Hl _]]; [reflexivity|].
    discriminate Hl.
  - repeat (split; [reflexivity|]).
    intros [Hmore _]. destruct Hmore as [l [Hl _]]; [reflexivity|].
    discriminate Hl.
Qed.

Lemma page_boundary_witness :
  (1 <= limitOf (Some 2%Z))%Z /\
  pageRule (limitOf (Some 2%Z))
           (fetchPage (limitOf (Some 2%Z)) None (docs threeStore))
           (getAllBlogs (Some 2%Z) None threeStore).
Proof.
  assert (H : (1 <= limitOf (Some 2%Z))%Z) by (vm_compute; discriminate).
  split; [exact H|].
  apply (page_boundary (Some 2%Z) None threeStore H).
Defined.

(** ** C6 *)

Lemma resolveSlug_first_free_witness :
  exists k,
    resolveSlug (docs threeStore) "hello-world" =
      Some (probeAt "hello-world" k) /\
    (forall b, In b (docs threeStore) -> slug b <> probeAt "hello-world" k) /\
    (1 <= k)%nat.
Proof.
  destruct (resolveSlug_first_free (docs threeStore) "hello-world")
    as [k [Hr [Hfree [_ [_ Hk]]]]].
  exists k. split; [exact Hr|]. split; [exact Hfree|].
  assert (Hex : exists b, In b (docs threeStore) /\ slug b = "hello-world").
  { eexists. split; [left; reflexivity | reflexivity]. }
  exact (proj1 (Hk Hex)).
Defined.

(** ** C7 *)

Lemma ownership_guard_witness :
  "hello-world" <> "" /\
  findOne "hello-world" (docs draftStore) = Some draftBlog /\
  status (fst (updateBlogController generateSlugModel 2000 "hello-world"
                                    (Some "u1") imageOnly draftStore)) = 200%nat /\
  status (fst (deleteBlogController "hello-world" (Some "u1") draftStore)) = 200%nat /\
  docs (snd (updateBlogController generateSlugModel 2000 "hello-world"
                                  (Some "u1") imageOnly draftStore)) =
    [applyPatch generateSlugModel 2000 imageOnly draftBlog] /\
  docs (snd (deleteBlogController "hello-world" (Some "u1") draftStore)) = [] /\
  deleteBlogController "hello-world" (Some "u2") draftStore =
    (mkResponse 403 Message, draftStore).
Proof.
  assert (H1 : "hello-world" <> "") by discriminate.
  assert (H2 : findOne "hello-world" (docs draftStore) = Some draftBlog)
    by reflexivity.
  split; [exact H1|]. split; [exact H2|].
  destruct (ownership_guard generateSlugModel 2000 "hello-world" (Some "u1")
                            imageOnly draftStore draftBlog H1 H2)
    as [Hu [Hd [Hown _]]].
  destruct (ownership_guard generateSlugModel 2000 "hello-world" (Some "u2")
                            imageOnly draftStore draftBlog H1 H2)
    as [_ [_ [_ [Hother _]]]].
  destruct (Hown eq_refl eq_refl) as [Hupd [_ [Hdel _]]].
  split; [apply Hu; split; reflexivity|].
  split; [apply Hd; split; reflexivity|].
  split; [rewrite Hupd; reflexivity|].
  split; [rewrite Hdel; reflexivity|].
  apply Hother; [reflexivity | discriminate].
Defined.

(** ** C8 *)

Lemma stringFlagStore_reachable : reachable generateSlugModel stringFlagStore.
Proof.
  eapply steps_next; [apply steps_refl|].
  exact (step_post generateSlugModel 1000 (Some "u1")
                   (rawBody (FlagString WordFalse)) emptyStore).
Defined.

Lemma stringPatchStore_reachable : reachable generateSlugModel stringPatchStore.
Proof.
  eapply steps_next; [eapply steps_next; [apply steps_refl|]|].
  - exact (step_post generateSlugModel 1000 (Some "u1") (helloBody None)
                     emptyStore).
  - exact (step_update generateSlugModel 2000 "hello-world" (Some "u1")
                       (flagPatch (FlagString WordFalse)) _).
Defined.

(** C8 on a flag sent as a string: a create request whose [isPublished] is
    the string ["false"] is answered 201 and stores an article that is
    neither a draft nor published ([isDraft = false] and [isPublished] not
    true), with [publishedAt] set; an update by the author with the same
    flag is answered 200 and leaves the stored article in the same state.
    Both stores are reachable, and in both [isDraft] is not the negation of
    [isPublished]. *)
Theorem string_flag_neither_draft_nor_published :
  flagTruthy (FlagString WordFalse) = true /\
  castBoolean (FlagString WordFalse) = Some false /\
  reachable generateSlugModel stringFlagStore /\
  (exists b,
     fst (postBlog generateSlugModel 1000 (Some "u1")
                   (rawBody (FlagString WordFalse)) emptyStore) =
     mkResponse 201 (OneBlog b) /\
     docs stringFlagStore = [b] /\
     isPublished b = Some false /\ isDraft b = false /\
     publishedAt b = Some 1000%Z /\
     isPublished b <> Some (negb (isDraft b))) /\
  reachable generateSlugModel stringPatchStore /\
  (exists b,
     fst (updateBlogController generateSlugModel 2000 "hello-world" (Some "u1")
            (flagPatch (FlagString WordFalse))
            (snd (postBlog generateSlugModel 1000 (Some "u1") (helloBody None)
                           emptyStore))) =
     mkResponse 200 (OneBlog b) /\
     docs stringPatchStore = [b] /\
     isPublished b = Some false /\ isDraft b = false /\
     isPublished b <> Some (negb (isDraft b))).
Proof.
  split; [reflexivity|]. split; [reflexivity|].
  split; [exact stringFlagStore_reachable|]. split.
  - eexists. repeat (split; [reflexivity|]). discriminate.
  - split; [exact stringPatchStore_reachable|].
    eexists. repeat (split; [reflexivity|]). discriminate.
Qed.

(** ** C9 *)

(** C9 at a negative limit: on a collection where nothing matches, the
    public listing called with [limit=-1] answers 500, not 200 with an empty
    array. *)
Lemma negative_limit_empty_listing_fails :
  (forall b, In b (docs emptyStore) -> cursorQuery None b = false) /\
  limitOf (Some (-1)%Z) = (-1)%Z /\
  getAllBlogs (Some (-1)%Z) None emptyStore = mkResponse 500 Message /\
  getAllBlogs (Some (-1)%Z) None emptyStore <> mkResponse 200 (Page [] None).
Proof.
  split; [intros b []|]. split; [reflexivity|]. split; [reflexivity|].
  discriminate.
Qed.

Lemma author_listing_witness :
  allBlogsOfUser None draftStore = mkResponse 401 Message /\
  allBlogsOfUser (Some "u9") draftStore = mkResponse 404 Message /\
  (exists items, allBlogsOfUser (Some "u1") draftStore =
                 mkResponse 200 (Blogs items) /\ items <> []) /\
  getAllBlogs None None emptyStore = mkResponse 200 (Page [] None).
Proof.
  split; [|split; [|split]].
  - apply (proj1 (author_listing None draftStore)). reflexivity.
  - apply (proj1 (proj2 (author_listing (Some "u9") draftStore)) "u9");
      [reflexivity | discriminate |].
    intros b [<- | []]. discriminate.
  - destruct (proj1 (proj2 (proj2 (author_listing (Some "u1") draftStore))) "u1")
      as [items [H [Hne _]]]; [reflexivity | discriminate | |].
    + exists draftBlog. split; [left; reflexivity | reflexivity].
    + exists items. split; assumption.
  - apply (proj2 (proj2 (proj2 (author_listing None emptyStore))) None None).
    + vm_compute. discriminate.
    + intros b [].
Defined.

(** ** C10 *)

Lemma existence_before_ownership_witness :
  "no-such-slug" <> "" /\ truthy (Some "u2") = true /\
  findOne "no-such-slug" (docs draftStore) = None /\
  updateBlogController generateSlugModel 2000 "no-such-slug" (Some "u2")
                       emptyPatch draftStore = (mkResponse 404 Message, draftStore) /\
  deleteBlogController "no-such-slug" (Some "u2") draftStore =
    (mkResponse 404 Message, draftStore) /\
  exists A, In A (docs draftStore) /\ slug A = "hello-world".
Proof.
  assert (H1 : "no-such-slug" <> "") by discriminate.
  assert (H2 : truthy (Some "u2") = true) by reflexivity.
  assert (H3 : findOne "no-such-slug" (docs draftStore) = None) by reflexivity.
  repeat (split; [assumption|]).
  destruct (proj1 (existence_before_ownership generateSlugModel 2000
                     "no-such-slug" (Some "u2") emptyPatch draftStore) H1 H2 H3)
    as [Hu Hd].
  split; [exact Hu|]. split; [exact Hd|].
  apply (proj1 (proj2 (existence_before_ownership generateSlugModel 2000
                         "hello-world" (Some "u2") emptyPatch draftStore))).
  reflexivity.
Defined.

(** * Further properties of the handlers *)

(** ** Facts about the collection operations *)

Lemma findOne_app_last (s : string) (ds : list Blog) (b : Blog) :
  findOne s ds = None ->
  findOne s (ds ++ [b]) = if slug b =? s then Some b else None.
Proof.
  unfold findOne. induction ds as [|d ds IH]; cbn; [reflexivity|].
  destruct (slug d =? s); [discriminate | exact IH].
Qed.

Lemma deleteOne_keeps (i : nat) (ds : list Blog) (b : Blog) :
  In b ds -> _id b <> i -> In b (deleteOne i ds).
Proof.
  induction ds as [|d ds IH]; cbn; [tauto|].
  intros [-> | Hin] Hne.
  - apply Nat.eqb_neq in Hne. rewrite Hne. left. reflexivity.
  - destruct (_id d =? i)%nat; [exact Hin | right; auto].
Qed.

Lemma deleteOne_app_last (i : nat) (ds : list Blog) (b : Blog) :
  (forall d, In d ds -> _id d <> i) -> _id b = i ->
  deleteOne i (ds ++ [b]) = ds.
Proof.
  induction ds as [|d ds IH]; cbn; intros Hall Hb.
  - apply Nat.eqb_eq in Hb. rewrite Hb. reflexivity.
  - assert (E : (_id d =? i)%nat = false).
    { apply Nat.eqb_neq. apply Hall. left. reflexivity. }
    rewrite E. f_equal. apply IH; [|exact Hb].
    intros x Hx. apply Hall. right. exact Hx.
Qed.

Lemma save_keeps (u : Blog) (ds : list Blog) (b : Blog) :
  In b ds -> _id b <> _id u -> In b (save u ds).
Proof.
  intros Hin Hne. unfold save. apply in_map_iff. exists b.
  apply Nat.eqb_neq in Hne. rewrite Hne. auto.
Qed.

Lemma save_length (u : Blog) (ds : list Blog) :
  List.length (save u ds) = List.length ds.
Proof. unfold save. apply length_map. Qed.

(** After [save] the lookup that found the loaded document finds the saved
    one. *)
Lemma findOne_save (s : string) (u A : Blog) (ds : list Blog) :
  NoDup (map _id ds) -> findOne s ds = Some A ->
  _id u = _id A -> slug u = slug A ->
  findOne s (save u ds) = Some u.
Proof.
  intros Hnd Hf Hid Hslug.
  destruct (findOne_Some _ _ _ Hf) as [HA HsA].
  revert Hnd Hf HA. unfold findOne, save.
  induction ds as [|d ds IH]; cbn; [discriminate|].
  intros Hnd Hf HA. inversion Hnd as [|? ? Hnin Hnd']; subst.
  destruct (slug d =? slug A) eqn:Es.
  - injection Hf as ->. rewrite Hid, Nat.eqb_refl. cbn.
    rewrite Hslug, String.eqb_refl. reflexivity.
  - destruct HA as [-> | HA]; [rewrite String.eqb_refl in Es; discriminate|].
    assert (En : (_id d =? _id u)%nat = false).
    { apply Nat.eqb_neq. intros E. apply Hnin. rewrite E, Hid.
      apply in_map. exact HA. }
    rewrite En. cbn. rewrite Es. apply IH; assumption.
Qed.

Lemma filter_length_lt {A : Type} (p q : A -> bool) (l : list A) (x : A) :
  (forall y, p y = true -> q y = true) ->
  In x l -> q x = true -> p x = false ->
  (List.length (filter p l) < List.length (filter q l))%nat.
Proof.
  intros Hpq. induction l as [|y l IH]; cbn; [tauto|].
  assert (Hle : (List.length (filter p l) <= List.length (filter q l))%nat).
  { clear IH. induction l as [|z l IHl]; cbn; [lia|].
    destruct (p z) eqn:Ep; [rewrite (Hpq z Ep); cbn; lia|].
    destruct (q z); cbn; lia. }
  intros [-> | Hin] Hq Hp.
  - rewrite Hq, Hp. cbn. lia.
  - specialize (IH Hin Hq Hp).
    destruct (p y) eqn:Ep; [rewrite (Hpq y Ep); cbn; lia|].
    destruct (q y); cbn; lia.
Qed.

Lemma prefix_app (p s : string) : String.prefix p (p ++ s) = true.
Proof.
  induction p as [|a p IH]; cbn; [destruct s; reflexivity|].
  destruct (ascii_dec a a) as [_ | Hne]; [exact IH | contradiction].
Qed.

Lemma prefix_app_l (p1 p2 s : string) :
  String.prefix (p1 ++ p2) s = true -> String.prefix p1 s = true.
Proof.
  revert s. induction p1 as [|a p1 IH]; intros s.
  - destruct s; reflexivity.
  - destruct s as [|b s]; cbn; [discriminate|].
    destruct (ascii_dec a b); [apply IH | discriminate].
Qed.

Lemma prefix_refl (s : string) : String.prefix s s = true.
Proof.
  induction s as [|a s IH]; cbn; [reflexivity|].
  destruct (ascii_dec a a) as [_ | Hne]; [exact IH | contradiction].
Qed.

(** ** Creating, and what every run keeps *)

Section CreateProperties.

Variable generateSlug : string -> string.
Variable users : string -> option Author.

Local Abbreviation create := (postBlog generateSlug).
Local Abbreviation update := (updateBlogController generateSlug).

(** What a 201 answer of the create handler says about the request and the
    next store. *)
Lemma postBlog_201_inv (now : Z) (user : option string) (body : Body)
      (st : Store) (b : Blog) :
  fst (create now user body st) = mkResponse 201 (OneBlog b) ->
  snd (create now user body st) = mkStore (docs st ++ [b]) (S (nextId st)) /\
  findOne (slug b) (docs st) = None /\
  _id b = nextId st /\ user = Some (author b) /\ filledIn b /\
  body_title body = Some (title b) /\
  resolveSlug (docs st) (generateSlug (title b)) = Some (slug b).
Proof.
  unfold postBlog.
  destruct (body_title body) as [t|]; [|discriminate].
  destruct (body_content body) as [c|]; [|discriminate].
  destruct (t =? "") eqn:Et; [discriminate|].
  destruct (c =? "") eqn:Ec; [discriminate|]. cbn [orb].
  destruct user as [a|]; cbn [truthy negb]; [|discriminate].
  destruct (a =? "") eqn:Ea; cbn [negb]; [discriminate|].
  destruct (resolveSlug (docs st) (generateSlug t)) as [s|] eqn:Hs;
    [|discriminate].
  cbn [fst snd]. intros H. injection H as <-. cbn.
  apply String.eqb_neq in Et, Ec, Ea.
  repeat split; try assumption; try reflexivity.
  apply (slugLoop_free _ _ _ _ _ _ Hs).
Qed.

(** X1: the create handler validates before it authenticates and writes
    nothing on either failure: a missing or empty title or content gives 400
    whatever the acting identity is, and with both present a missing or
    empty identity gives 401; the store is returned as it was. *)
Theorem postBlog_rejects (now : Z) (user : option string) (body : Body)
        (st : Store) :
  (truthy (body_title body) = false \/ truthy (body_content body) = false ->
   create now user body st = (mkResponse 400 Message, st)) /\
  (truthy (body_title body) = true -> truthy (body_content body) = true ->
   truthy user = false ->
   create now user body st = (mkResponse 401 Message, st)).
Proof.
  unfold postBlog, truthy.
  destruct (body_title body) as [t|], (body_content body) as [c|];
    try (split; [reflexivity | discriminate]).
  - destruct (t =? ""), (c =? ""); cbn [negb orb];
      try (split; [reflexivity | discriminate]).
    split; [intros [H | H]; discriminate|]. intros _ _.
    destruct user as [a|]; [|reflexivity].
    destruct (a =? ""); cbn [negb]; [reflexivity | discriminate].
Qed.

(** X2: with a non-empty title and content and an acting identity the
    create handler always answers 201: the probing loop ends, the new
    article is appended behind the stored ones with the counter as [_id],
    the caller as author, a slug that is the title's candidate or the
    candidate with a numeric suffix and that no stored article has, and the
    tags of the request in their order. *)
Theorem postBlog_creates (now : Z) (authorId title0 content0 : string)
        (body : Body) (st : Store) :
  body_title body = Some title0 -> title0 <> "" ->
  body_content body = Some content0 -> content0 <> "" ->
  authorId <> "" ->
  exists b,
    create now (Some authorId) body st =
    (mkResponse 201 (OneBlog b), mkStore (docs st ++ [b]) (S (nextId st))) /\
    _id b = nextId st /\ title b = title0 /\ content b = content0 /\
    imageUrl b = body_imageUrl body /\ author b = authorId /\
    (exists k, slug b = probeAt (generateSlug title0) k) /\
    (forall d, In d (docs st) -> slug d <> slug b) /\
    map name (tags b) =
      match body_tags body with Some ts => ts | None => [] end.
Proof.
  intros Ht Ht0 Hc Hc0 Ha. unfold postBlog. rewrite Ht, Hc.
  apply String.eqb_neq in Ht0, Hc0. rewrite Ht0, Hc0. cbn [orb].
  unfold truthy. apply String.eqb_neq in Ha. rewrite Ha. cbn [negb].
  destruct (free_probe_exists (docs st) (generateSlug title0)) as [k0 [Hk0 Hf0]].
  destruct (slugLoop_first_free (docs st) (generateSlug title0)
                                (S (List.length (docs st))) 0)
    as [k [_ [Hloop [Hfree _]]]].
  { exists k0. split; [lia | exact Hf0]. }
  unfold resolveSlug. cbn [probeAt] in Hloop. rewrite Hloop.
  eexists. split; [reflexivity|]. cbn.
  repeat match goal with |- _ /\ _ => split end; try reflexivity.
  - exists k. reflexivity.
  - apply findOne_None. exact Hfree.
  - unfold formatTags. rewrite map_map. cbn. apply map_id.
Qed.

(** X3: an article that was just created can be read back: after a 201 the
    lookup by the new slug finds exactly the created article, and the
    public read of that slug, when it is not empty, answers 200 with the
    article and the author details of the caller. *)
Theorem read_after_create (now : Z) (user : option string) (body : Body)
        (st : Store) (b : Blog) :
  fst (create now user body st) = mkResponse 201 (OneBlog b) ->
  findOne (slug b) (docs (snd (create now user body st))) = Some b /\
  (slug b <> "" ->
   getSingleBlog users (slug b) (snd (create now user body st)) =
   mkSingle 200 (SingleBlog b (users (author b)))).
Proof.
  intros H. destruct (postBlog_201_inv now user body st b H)
    as [Hst [Hfree _]].
  rewrite Hst. cbn [docs].
  assert (Hf : findOne (slug b) (docs st ++ [b]) = Some b).
  { rewrite (findOne_app_last _ _ _ Hfree), String.eqb_refl. reflexivity. }
  split; [exact Hf|].
  intros Hne. unfold getSingleBlog. apply String.eqb_neq in Hne.
  rewrite Hne. cbn [docs]. rewrite Hf. reflexivity.
Qed.

Lemma applyPatch_filledIn (now : Z) (body : Body) (A : Blog) :
  filledIn A -> filledIn (applyPatch generateSlug now body A).
Proof.
  intros [Ht [Hc Ha]]. unfold filledIn, applyPatch. cbn.
  repeat split; [| |exact Ha].
  - destruct (body_title body) as [t|]; [|exact Ht].
    destruct (t =? "") eqn:E; [exact Ht | apply String.eqb_neq; exact E].
  - destruct (body_content body) as [c|]; [|exact Hc].
    destruct (c =? "") eqn:E; [exact Hc | apply String.eqb_neq; exact E].
Qed.

Lemma step_filledIn (st st' : Store) :
  step generateSlug st st' ->
  Forall filledIn (docs st) -> Forall filledIn (docs st').
Proof.
  intros Hstep Hall. destruct Hstep.
  - destruct (create_docs generateSlug now user body st)
      as [E | [n [R [E _]]]]; rewrite E; [exact Hall|].
    cbn [docs]. apply Forall_app. split; [exact Hall|].
    constructor; [|constructor].
    apply (postBlog_201_inv now user body st n R).
  - destruct (update_docs generateSlug now slugParam user body st)
      as [E | [A [HA E]]]; rewrite E; [exact Hall|].
    cbn [docs]. rewrite Forall_forall in *. intros x Hx.
    apply save_In in Hx. destruct Hx as [-> | Hx]; [|auto].
    apply applyPatch_filledIn. auto.
  - destruct (delete_docs slugParam user st) as [E | [A [HA E]]];
      rewrite E; [exact Hall|].
    cbn [docs]. rewrite Forall_forall in *. intros x Hx.
    apply deleteOne_In in Hx. auto.
Qed.

(** X4: every store reached from the empty one by create, update and delete
    requests has pairwise different slugs and pairwise different [_id]s,
    all below the counter, and no article with an empty title, content or
    author. *)
Theorem reachable_store_invariants (st : Store) :
  reachable generateSlug st ->
  NoDup (map slug (docs st)) /\
  NoDup (map _id (docs st)) /\
  Forall (fun b => _id b < nextId st)%nat (docs st) /\
  Forall filledIn (docs st).
Proof.
  intros Hr.
  split; [apply (reachable_slugs generateSlug st Hr)|].
  destruct (reachable_wellFormed generateSlug st Hr) as [Hids Hlt].
  split; [exact Hids|]. split; [exact Hlt|].
  unfold reachable in Hr. remember emptyStore as st0 eqn:E0.
  induction Hr as [st | st1 st2 st3 Hsteps IH Hstep]; subst.
  - constructor.
  - apply (step_filledIn st2 st3 Hstep). apply IH; try reflexivity.
    + apply (reachable_wellFormed generateSlug st2 Hsteps).
    + apply (reachable_wellFormed generateSlug st2 Hsteps).
Qed.

Lemma step_fixedPart (st st' : Store) :
  step generateSlug st st' ->
  forall b', In b' (docs st') ->
    _id b' = nextId st \/
    exists b, In b (docs st) /\ _id b = _id b' /\ fixedPart b = fixedPart b'.
Proof.
  intros Hstep. destruct Hstep.
  - destruct (create_docs generateSlug now user body st)
      as [E | [n [_ [E [Hid _]]]]]; rewrite E.
    + intros b' Hin. right. exists b'. auto.
    + cbn [docs]. intros b' Hin. apply in_app_or in Hin.
      destruct Hin as [Hin | [<- | []]]; [|left; exact Hid].
      right. exists b'. auto.
  - destruct (update_docs generateSlug now slugParam user body st)
      as [E | [A [HA E]]]; rewrite E.
    + intros b' Hin. right. exists b'. auto.
    + cbn [docs]. intros b' Hin. right. apply save_In in Hin.
      destruct Hin as [-> | Hin]; [exists A | exists b']; auto.
  - destruct (delete_docs slugParam user st) as [E | [A [HA E]]]; rewrite E.
    + intros b' Hin. right. exists b'. auto.
    + cbn [docs]. intros b' Hin. right. apply deleteOne_In in Hin.
      exists b'. auto.
Qed.

(** X5: identifiers are never reused and an article keeps its identity: along
    every run that starts in a reachable store, an article found later
    under the [_id] of an earlier one has the same slug and the same
    author, whatever was created, updated (retitled, too) or deleted in
    between. *)
Theorem identity_is_kept (st st' : Store) (b b' : Blog) :
  reachable generateSlug st -> steps generateSlug st st' ->
  In b (docs st) -> In b' (docs st') -> _id b' = _id b ->
  slug b' = slug b /\ author b' = author b.
Proof.
  intros Hr Hsteps Hb Hb' Hid.
  assert (Hwf : wellFormed st) by (apply (reachable_wellFormed generateSlug); exact Hr).
  assert (H : fixedPart b' = fixedPart b).
  { clear Hr. revert b' Hb' Hid.
    induction Hsteps as [st | st1 st2 st3 Hsteps IH Hstep]; intros b' Hb' Hid.
    - destruct Hwf as [Hnd _].
      rewrite (NoDup_map_In_eq _id (docs st) b' b Hnd Hb' Hb Hid). reflexivity.
    - destruct (steps_publishedAt generateSlug st1 st2 Hsteps Hwf)
        as [_ [Hle _]].
      destruct (step_fixedPart st2 st3 Hstep b' Hb')
        as [Hnew | [b2 [Hb2 [E2 F2]]]].
      + destruct Hwf as [_ Hlt]. rewrite Forall_forall in Hlt.
        specialize (Hlt b Hb). lia.
      + rewrite <- F2. apply (IH Hb Hwf); [exact Hb2 | congruence]. }
  unfold fixedPart in H. injection H as H1 H2 H3 H4. auto.
Qed.

(** X6: the suffix counter is not remembered.  When no stored article has
    the candidate slug of a title, an article created under that title gets
    the candidate itself; and when its author deletes it again, the
    documents are as before and the next article created under the title
    gets the same slug once more. *)
Theorem slug_is_reused_after_delete (now now' : Z) (authorId title0 content0 : string)
        (body : Body) (st : Store) :
  wellFormed st ->
  body_title body = Some title0 -> title0 <> "" ->
  body_content body = Some content0 -> content0 <> "" ->
  authorId <> "" -> generateSlug title0 <> "" ->
  (forall d, In d (docs st) -> slug d <> generateSlug title0) ->
  exists b st1 st2 b',
    create now (Some authorId) body st = (mkResponse 201 (OneBlog b), st1) /\
    slug b = generateSlug title0 /\
    deleteBlogController (slug b) (Some authorId) st1 =
      (mkResponse 200 Message, st2) /\
    docs st2 = docs st /\
    fst (create now' (Some authorId) body st2) = mkResponse 201 (OneBlog b') /\
    slug b' = generateSlug title0.
Proof.
  intros [Hnd Hlt] Ht Ht0 Hc Hc0 Ha Hs Hfree.
  assert (Hcreate : forall n ds i,
    (forall d, In d ds -> slug d <> generateSlug title0) ->
    exists b, create n (Some authorId) body (mkStore ds i) =
              (mkResponse 201 (OneBlog b), mkStore (ds ++ [b]) (S i)) /\
              slug b = generateSlug title0 /\ _id b = i /\ author b = authorId).
  { intros n ds i Hf. unfold postBlog. rewrite Ht, Hc.
    pose proof Ht0 as Ht0'. pose proof Hc0 as Hc0'. pose proof Ha as Ha'.
    apply String.eqb_neq in Ht0', Hc0', Ha'. rewrite Ht0', Hc0'. cbn [orb].
    unfold truthy. rewrite Ha'. cbn [negb docs nextId].
    unfold resolveSlug. cbn [slugLoop].
    rewrite (proj2 (findOne_None _ _) Hf).
    eexists. split; [reflexivity|]. cbn. auto. }
  destruct (Hcreate now (docs st) (nextId st) Hfree) as [b [Hb [Hsb [Hib Hab]]]].
  exists b, (mkStore (docs st ++ [b]) (S (nextId st))).
  exists (mkStore (docs st) (S (nextId st))).
  destruct (Hcreate now' (docs st) (S (nextId st)) Hfree) as [b' [Hb' [Hsb' _]]].
  exists b'. destruct st as [ds i]. cbn [docs nextId] in *.
  split; [exact Hb|]. split; [exact Hsb|]. split.
  - unfold deleteBlogController. rewrite Hsb.
    pose proof Hs as Hs'. pose proof Ha as Ha'.
    apply String.eqb_neq in Hs', Ha'. rewrite Hs', Ha'. cbn [orb docs].
    rewrite (findOne_app_last _ _ _ (proj2 (findOne_None _ _) Hfree)).
    rewrite Hsb, String.eqb_refl, Hab, String.eqb_refl. cbn [negb nextId].
    rewrite deleteOne_app_last; [reflexivity | | reflexivity].
    intros d Hd. rewrite Forall_forall in Hlt. specialize (Hlt d Hd). lia.
  - split; [reflexivity|]. split; [rewrite Hb'; reflexivity | exact Hsb'].
Qed.

End CreateProperties.

(** ** Deleting, updating and reading one article *)

Section MutationProperties.

Variable generateSlug : string -> string.
Variable users : string -> option Author.

Local Abbreviation create := (postBlog generateSlug).
Local Abbreviation update := (updateBlogController generateSlug).

Lemma same_id_same_doc (st : Store) (a b : Blog) :
  wellFormed st -> In a (docs st) -> In b (docs st) -> _id a = _id b -> a = b.
Proof.
  intros [Hnd _]. apply (NoDup_map_In_eq _id (docs st) a b Hnd).
Qed.

(** X7: a delete by the author removes exactly the named article from a
    reachable store: the answer is 200, the counter is unchanged, one
    document fewer is stored, every other article is still there, the slug
    no longer resolves, so that the public read and a second delete of the
    same slug both answer 404. *)
Theorem delete_removes_only_target (slugParam authorId : string) (st : Store)
        (A : Blog) :
  reachable generateSlug st ->
  slugParam <> "" -> authorId <> "" ->
  findOne slugParam (docs st) = Some A -> author A = authorId ->
  exists st',
    deleteBlogController slugParam (Some authorId) st =
      (mkResponse 200 Message, st') /\
    nextId st' = nextId st /\
    S (List.length (docs st')) = List.length (docs st) /\
    (forall B, In B (docs st') <-> In B (docs st) /\ B <> A) /\
    findOne slugParam (docs st') = None /\
    getSingleBlog users slugParam st' = mkSingle 404 SingleMessage /\
    deleteBlogController slugParam (Some authorId) st' =
      (mkResponse 404 Message, st').
Proof.
  intros Hr Hs Ha Hf Hau.
  pose proof (reachable_wellFormed generateSlug st Hr) as Hwf.
  pose proof (reachable_slugs generateSlug st Hr) as Hslugs.
  destruct (findOne_Some _ _ _ Hf) as [HA HsA].
  exists (mkStore (deleteOne (_id A) (docs st)) (nextId st)).
  assert (Hin : forall B, In B (deleteOne (_id A) (docs st)) <->
                          In B (docs st) /\ B <> A).
  { intros B. split.
    - intros HB. split; [apply (deleteOne_In _ _ _ HB)|].
      intros ->. apply (deleteOne_gone (_id A) (docs st) A); [apply Hwf | exact HB | reflexivity].
    - intros [HB Hne]. apply deleteOne_keeps; [exact HB|].
      intros E. apply Hne. apply (same_id_same_doc st); assumption. }
  assert (Hgone : findOne slugParam (deleteOne (_id A) (docs st)) = None).
  { apply findOne_None. intros B HB HsB. apply Hin in HB.
    destruct HB as [HB Hne]. apply Hne.
    apply (NoDup_map_In_eq slug (docs st)); try assumption. congruence. }
  pose proof Hs as Hs'. pose proof Ha as Ha'.
  apply String.eqb_neq in Hs', Ha'.
  repeat match goal with |- _ /\ _ => split end.
  - unfold deleteBlogController. rewrite Hs', Ha', Hf. cbn [orb].
    apply String.eqb_eq in Hau. rewrite Hau. reflexivity.
  - reflexivity.
  - cbn [docs]. apply (deleteOne_length _ _ A); [exact HA | reflexivity].
  - exact Hin.
  - exact Hgone.
  - unfold getSingleBlog. rewrite Hs'. cbn [docs]. rewrite Hgone. reflexivity.
  - unfold deleteBlogController. rewrite Hs', Ha'. cbn [orb docs].
    rewrite Hgone. reflexivity.
Qed.

(** X8: an update by the author rewrites exactly the named article of a
    reachable store: as many documents are stored, in the same order, under
    the same [_id]s and slugs; every other article is untouched; and the
    slug now resolves to the patched article, which is what the public read
    returns. *)
Theorem update_changes_only_target (now : Z) (slugParam authorId : string)
        (body : Body) (st : Store) (A : Blog) :
  reachable generateSlug st ->
  slugParam <> "" -> authorId <> "" ->
  findOne slugParam (docs st) = Some A -> author A = authorId ->
  exists A' st',
    update now slugParam (Some authorId) body st =
      (mkResponse 200 (OneBlog A'), st') /\
    nextId st' = nextId st /\
    map _id (docs st') = map _id (docs st) /\
    map slug (docs st') = map slug (docs st) /\
    (forall B, In B (docs st) -> B <> A -> In B (docs st')) /\
    (forall B, In B (docs st') -> B = A' \/ (In B (docs st) /\ B <> A)) /\
    findOne slugParam (docs st') = Some A' /\
    getSingleBlog users slugParam st' =
      mkSingle 200 (SingleBlog A' (users authorId)).
Proof.
  intros Hr Hs Ha Hf Hau.
  pose proof (reachable_wellFormed generateSlug st Hr) as Hwf.
  destruct (findOne_Some _ _ _ Hf) as [HA HsA].
  set (A' := applyPatch generateSlug now body A).
  exists A', (mkStore (save A' (docs st)) (nextId st)).
  assert (Hfind : findOne slugParam (save A' (docs st)) = Some A').
  { apply (findOne_save _ _ A); [apply Hwf | exact Hf | reflexivity | reflexivity]. }
  repeat match goal with |- _ /\ _ => split end.
  - apply update_owner; assumption.
  - reflexivity.
  - cbn [docs]. apply (save_ids _ A). reflexivity.
  - cbn [docs]. apply (save_slugs _ A); [apply Hwf | exact HA | reflexivity | reflexivity].
  - intros B HB Hne. cbn [docs]. apply save_keeps; [exact HB|].
    intros E. apply Hne. apply (same_id_same_doc st); assumption.
  - intros B HB. cbn [docs] in HB. unfold save in HB.
    apply in_map_iff in HB. destruct HB as [d [E Hd]].
    destruct (_id d =? _id A')%nat eqn:En; [left; symmetry; exact E|].
    right. subst B. split; [exact Hd|]. intros ->.
    rewrite Nat.eqb_refl in En. discriminate.
  - exact Hfind.
  - unfold getSingleBlog. apply String.eqb_neq in Hs. rewrite Hs.
    cbn [docs]. rewrite Hfind. subst A'. cbn. rewrite Hau. reflexivity.
Qed.

(** X9: nobody but the author changes or removes an article.  Whatever the
    request, a create, update or delete sent under an acting identity
    different from the author of a stored article (or under none) leaves
    that article in the store exactly as it was. *)
Theorem only_the_author_writes (st : Store) (A : Blog) (user : option string) :
  wellFormed st -> In A (docs st) -> user <> Some (author A) ->
  (forall now body, In A (docs (snd (create now user body st)))) /\
  (forall now slugParam body,
     In A (docs (snd (update now slugParam user body st)))) /\
  (forall slugParam, In A (docs (snd (deleteBlogController slugParam user st)))).
Proof.
  intros Hwf HA Hu. split; [|split].
  - intros now body.
    destruct (create_docs generateSlug now user body st)
      as [E | [n [_ [E _]]]]; rewrite E; [exact HA|].
    cbn [docs]. apply in_or_app. left. exact HA.
  - intros now slugParam body. unfold updateBlogController.
    destruct user as [a|]; [|exact HA].
    destruct ((slugParam =? "") || (a =? "")); [exact HA|].
    destruct (findOne slugParam (docs st)) as [B|] eqn:Hf; [|exact HA].
    destruct (author B =? a) eqn:Hau; cbn [negb snd docs]; [|exact HA].
    apply String.eqb_eq in Hau. apply findOne_Some in Hf.
    apply save_keeps; [exact HA|]. cbn. intros E.
    destruct Hf as [HB _].
    assert (A = B) by (apply (same_id_same_doc st); assumption).
    subst B. congruence.
  - intros slugParam. unfold deleteBlogController.
    destruct user as [a|]; [|exact HA].
    destruct ((slugParam =? "") || (a =? "")); [exact HA|].
    destruct (findOne slugParam (docs st)) as [B|] eqn:Hf; [|exact HA].
    destruct (author B =? a) eqn:Hau; cbn [negb snd docs]; [|exact HA].
    apply String.eqb_eq in Hau. apply findOne_Some in Hf.
    apply deleteOne_keeps; [exact HA|]. intros E.
    destruct Hf as [HB _].
    assert (A = B) by (apply (same_id_same_doc st); assumption).
    subst B. congruence.
Qed.

(** X10: the read of one article is public and does not look at the
    publication flag: an empty slug gives 400, a slug no article has gives
    404, and in a reachable store every article with a non-empty slug,
    draft or published, is returned with status 200 under its own slug,
    together with the details of its author. *)
Theorem public_read (slugParam : string) (st : Store) :
  (slugParam = "" -> getSingleBlog users slugParam st = mkSingle 400 SingleMessage) /\
  (slugParam <> "" -> (forall b, In b (docs st) -> slug b <> slugParam) ->
   getSingleBlog users slugParam st = mkSingle 404 SingleMessage) /\
  (forall A, reachable generateSlug st -> In A (docs st) -> slug A <> "" ->
             getSingleBlog users (slug A) st =
             mkSingle 200 (SingleBlog A (users (author A)))).
Proof.
  unfold getSingleBlog. split; [|split].
  - intros ->. reflexivity.
  - intros Hs Hnone. apply String.eqb_neq in Hs. rewrite Hs.
    rewrite (proj2 (findOne_None _ _) Hnone). reflexivity.
  - intros A Hr HA Hs. apply String.eqb_neq in Hs. rewrite Hs.
    rewrite (reachable_findOne generateSlug st A Hr HA). reflexivity.
Qed.

End MutationProperties.

(** ** More on the two listings *)

Section ListingProperties.

Variable generateSlug : string -> string.

Lemma lastItem_In {A : Type} (l : list A) (x : A) :
  lastItem l = Some x -> In x l.
Proof.
  intros H. destruct (lastItem_split _ _ H) as [pre ->].
  apply in_or_app. right. left. reflexivity.
Qed.

Lemma matches_In (cursor : option Z) (ds : list Blog) (n : nat) (b : Blog) :
  In b (firstn n (sortDesc (filter (cursorQuery cursor) ds))) ->
  In b ds /\ cursorQuery cursor b = true.
Proof.
  intros H. apply firstn_In, sortDesc_In, filter_In in H. exact H.
Qed.

Lemma sorted_items (l : list Blog) :
  StronglySorted descOrder l -> StronglySorted itemDescOrder (map select l).
Proof.
  induction 1 as [|d l Hs IH Hall]; cbn [map]; constructor; [exact IH|].
  rewrite Forall_forall in *. intros it Hit. apply in_map_iff in Hit.
  destruct Hit as [b [<- Hb]]. exact (Hall b Hb).
Qed.

(** An article dated after all the others sorts first. *)
Lemma sortDesc_app_newest (ds : list Blog) (b : Blog) (now : Z) :
  publishedAt b = Some now ->
  Forall (fun d => earlier now (publishedAt d)) ds ->
  sortDesc (ds ++ [b]) = b :: sortDesc ds.
Proof.
  intros Hb. induction 1 as [|d ds Hd Hall IH]; [reflexivity|].
  rewrite <- app_comm_cons. cbn [sortDesc]. rewrite IH.
  cbn [insertDesc]. rewrite Hb.
  replace (dateLeb (Some now) (publishedAt d)) with false; [reflexivity|].
  unfold earlier in Hd. destruct (publishedAt d) as [t|]; cbn; [|reflexivity].
  symmetry. apply Z.leb_gt. exact Hd.
Qed.

(** X11: under a page size of at least one a page of the public listing
    never has more items than the page size; a cursor is only handed out
    with a full page, it is the publication date of the last item of that
    page, and it is strictly earlier than the cursor the request came
    with. *)
Theorem page_is_bounded_and_advances (parsedLimit cursor : option Z)
        (st : Store) (code : nat) (items : list BlogItem) (next : option Z) :
  (1 <= limitOf parsedLimit)%Z ->
  getAllBlogs parsedLimit cursor st = mkResponse code (Page items next) ->
  code = 200%nat /\
  (Z.of_nat (List.length items) <= limitOf parsedLimit)%Z /\
  forall c', next = Some c' ->
    Z.of_nat (List.length items) = limitOf parsedLimit /\
    (exists it, lastItem items = Some it /\ item_publishedAt it = Some c') /\
    (exists b, In b (docs st) /\ publishedAt b = Some c') /\
    forall c, cursor = Some c -> (c' < c)%Z.
Proof.
  intros Hpos H.
  destruct (getAllBlogs_page parsedLimit cursor st Hpos) as [_ [Hmore Hless]].
  set (L := Z.to_nat (limitOf parsedLimit)) in *.
  set (M := sortDesc (filter (cursorQuery cursor) (docs st))) in *.
  destruct (Nat.lt_ge_cases L (List.length M)) as [Hlt | Hge].
  - destruct (Hmore Hlt) as [l [Hl E]]. rewrite E in H.
    injection H as <- <- <-.
    assert (Hlen : List.length (map select (firstn L M)) = L).
    { rewrite length_map, length_firstn. lia. }
    split; [reflexivity|]. split; [rewrite Hlen; unfold L; lia|].
    intros c' Hc'. split; [rewrite Hlen; unfold L; lia|].
    destruct (matches_In cursor (docs st) L l (lastItem_In _ _ Hl)) as [Hin Hq].
    split; [|split].
    + exists (select l). rewrite lastItem_map, Hl. split; [reflexivity | exact Hc'].
    + exists l. split; assumption.
    + intros c ->. cbn in Hq. rewrite Hc' in Hq. apply Z.ltb_lt. exact Hq.
  - rewrite (Hless Hge) in H. injection H as <- <- <-.
    split; [reflexivity|]. split; [|discriminate].
    rewrite length_map. unfold L in Hge. lia.
Qed.

(** X12: following the cursors always ends, whatever the store holds (equal
    dates, drafts, articles without a date): under a page size of at least
    one and from any starting cursor, as many requests as there are
    matching articles plus one suffice to reach a page without cursor, and
    every item received on the way is a stored article that matches the
    starting cursor. *)
Theorem cursor_chaining_terminates (st : Store) (L : nat) (fuel : nat) :
  (1 <= L)%nat ->
  forall cursor,
    (List.length (filter (cursorQuery cursor) (docs st)) < fuel)%nat ->
    exists pages,
      paginate fuel (Some (Z.of_nat L)) cursor st = Some pages /\
      (List.length pages <=
       S (List.length (filter (cursorQuery cursor) (docs st))))%nat /\
      forall it, In it (pageItems pages) ->
        exists b, In b (docs st) /\ select b = it /\
                  cursorQuery cursor b = true.
Proof.
  intros HL. induction fuel as [|fuel IH]; intros cursor Hfuel; [lia|].
  pose proof (getAllBlogs_page (Some (Z.of_nat L)) cursor st) as Hpage.
  rewrite (limitOf_nat L HL), Nat2Z.id in Hpage.
  destruct Hpage as [_ [Hmore Hless]]; [lia|].
  set (M := sortDesc (filter (cursorQuery cursor) (docs st))) in *.
  assert (HM : List.length M = List.length (filter (cursorQuery cursor) (docs st)))
    by apply sortDesc_length.
  assert (Hfirst : forall n it, In it (map select (firstn n M)) ->
            exists b, In b (docs st) /\ select b = it /\
                      cursorQuery cursor b = true).
  { intros n it Hit. apply in_map_iff in Hit. destruct Hit as [b [E Hb]].
    destruct (matches_In cursor (docs st) n b Hb) as [Hin Hq]. eauto. }
  cbn [paginate].
  destruct (Nat.lt_ge_cases L (List.length M)) as [Hlt | Hge].
  - destruct (Hmore Hlt) as [l [Hl ->]].
    destruct (matches_In cursor (docs st) L l (lastItem_In _ _ Hl)) as [Hin Hq].
    destruct (publishedAt l) as [t|] eqn:El.
    + assert (Himp : forall y, cursorQuery (Some t) y = true ->
                               cursorQuery cursor y = true).
      { intros y Hy. destruct cursor as [c|]; [|reflexivity].
        cbn in *. rewrite El in Hq.
        destruct (publishedAt y) as [ty|]; [|discriminate].
        apply Z.ltb_lt in Hq, Hy. apply Z.ltb_lt. lia. }
      assert (Hless' : (List.length (filter (cursorQuery (Some t)) (docs st)) <
                        List.length (filter (cursorQuery cursor) (docs st)))%nat).
      { apply (filter_length_lt _ _ _ l Himp Hin Hq).
        cbn. rewrite El. apply Z.ltb_irrefl. }
      destruct (IH (Some t)) as [pages [Hp [Hlen Hitems]]]; [lia|].
      rewrite Hp. eexists. split; [reflexivity|]. split; [cbn; lia|].
      intros it Hit. rewrite pageItems_cons in Hit. cbn [fst] in Hit.
      apply in_app_or in Hit. destruct Hit as [Hit | Hit].
      * apply (Hfirst L). exact Hit.
      * destruct (Hitems it Hit) as [b [Hb [E Hqb]]].
        exists b. repeat split; try assumption. apply Himp. exact Hqb.
    + eexists. split; [reflexivity|]. split; [cbn; lia|].
      intros it Hit. unfold pageItems in Hit. cbn in Hit.
      rewrite app_nil_r in Hit. apply (Hfirst L). exact Hit.
  - rewrite (Hless Hge). eexists. split; [reflexivity|]. split; [cbn; lia|].
    intros it Hit. unfold pageItems in Hit. cbn in Hit.
    rewrite app_nil_r in Hit. apply (Hfirst (List.length M)).
    rewrite firstn_all. exact Hit.
Qed.

(** X13: a 200 answer of the author listing holds one item for each article
    of the acting identity, drafts included, and for no other article, in
    descending order of publication date with the undated ones last. *)
Theorem author_listing_sorted_and_complete (a : string) (st : Store)
        (items : list BlogItem) :
  allBlogsOfUser (Some a) st = mkResponse 200 (Blogs items) ->
  a <> "" /\
  List.length items =
    List.length (filter (fun b => author b =? a) (docs st)) /\
  Forall (fun it => item_author it = a) items /\
  (forall b, In b (docs st) -> author b = a -> In (select b) items) /\
  StronglySorted itemDescOrder items.
Proof.
  unfold allBlogsOfUser. destruct (a =? "") eqn:Ea; [discriminate|].
  destruct (List.length _ =? 0)%nat; [discriminate|].
  intros H. injection H as <-. apply String.eqb_neq in Ea.
  split; [exact Ea|]. split; [rewrite length_map; apply sortDesc_length|].
  split; [|split].
  - rewrite Forall_forall. intros it Hit. apply in_map_iff in Hit.
    destruct Hit as [b [<- Hb]]. apply sortDesc_In, filter_In in Hb.
    destruct Hb as [_ Hb]. apply String.eqb_eq in Hb. exact Hb.
  - intros b Hb Hau. apply in_map. apply sortDesc_In, filter_In.
    split; [exact Hb | apply String.eqb_eq; exact Hau].
  - apply sorted_items, sortDesc_sorted.
Qed.

(** X14: a published article created at a time later than every stored
    publication date is the first item of the public listing that follows,
    for every page size of at least one. *)
Theorem new_article_heads_the_feed (now : Z) (user : option string)
        (body : Body) (st : Store) (b : Blog) (parsedLimit : option Z) :
  fst (postBlog generateSlug now user body st) = mkResponse 201 (OneBlog b) ->
  isPublished b = Some true ->
  Forall (fun d => earlier now (publishedAt d)) (docs st) ->
  (1 <= limitOf parsedLimit)%Z ->
  exists rest next,
    getAllBlogs parsedLimit None (snd (postBlog generateSlug now user body st)) =
    mkResponse 200 (Page (select b :: rest) next).
Proof.
  intros H Hpub Hall Hpos.
  destruct (create_docs generateSlug now user body st)
    as [E | [n [R [E [_ [F [_ P]]]]]]].
  - exfalso. destruct (postBlog_201_inv generateSlug now user body st b H)
      as [Hst _]. rewrite Hst in E.
    apply (f_equal (fun s => List.length (docs s))) in E. cbn in E.
    rewrite length_app in E. cbn in E. lia.
  - rewrite R in H. injection H as ->. rewrite F in Hpub.
    apply castBoolean_true in Hpub. rewrite Hpub in P.
    destruct (getAllBlogs_page parsedLimit None
                (snd (postBlog generateSlug now user body st)) Hpos)
      as [_ [Hmore Hless]].
    rewrite E in Hmore, Hless |- *. cbn [docs] in Hmore, Hless.
    rewrite filter_all in Hmore, Hless by reflexivity.
    rewrite (sortDesc_app_newest _ _ now P Hall) in Hmore, Hless.
    set (L := Z.to_nat (limitOf parsedLimit)) in *.
    destruct (Nat.lt_ge_cases L (List.length (b :: sortDesc (docs st))))
      as [Hlt | Hge].
    + destruct (Hmore Hlt) as [l [_ ->]].
      destruct L as [|L'] eqn:EL; [unfold L in EL; lia|].
      cbn [firstn map]. eauto.
    + rewrite (Hless Hge). cbn [map]. eauto.
Qed.

End ListingProperties.

(** ** Cookies and the navigation bar *)

(** [sendToken] keeps the cookies already set and adds exactly two
    behind them, the refresh token and then the access token, both
    [httpOnly], [secure] and [SameSite=None]; the refresh cookie lives seven
    days, 672 times the quarter hour of the access cookie; and the
    [message] argument has no effect. *)
Lemma sendToken_cookies (res : list Cookie) (accessToken refreshToken : string)
        (message message' : option string) :
  sendToken res accessToken refreshToken message =
  sendToken res accessToken refreshToken message' /\
  exists rc ac,
    sendToken res accessToken refreshToken message = (res ++ [rc; ac])%list /\
    cookie_name rc = "refreshToken" /\ cookie_value rc = refreshToken /\
    cookie_name ac = "accessToken" /\ cookie_value ac = accessToken /\
    Forall (fun c => httpOnly (cookie_options c) = true /\
                     secure (cookie_options c) = true /\
                     sameSite (cookie_options c) = "none") [rc; ac] /\
    maxAge (cookie_options rc) = (7 * 86400000)%Z /\
    maxAge (cookie_options ac) = (15 * 60000)%Z /\
    maxAge (cookie_options rc) = (672 * maxAge (cookie_options ac))%Z.
Proof.
  split; [reflexivity|]. unfold sendToken. do 2 eexists.
  split; [rewrite <- app_assoc; reflexivity|].
  cbn. repeat split; repeat constructor; reflexivity.
Qed.

(** X15: the navigation bar is hidden on every route below
    [/dashboard/myBlogs/] and below [/preview/], whatever follows; and the
    test [pathname !== "/dashboard/myBlogs"] never decides, a path that
    starts with [/dashboard/myBlogs/] being different from it anyway. *)
Theorem navbar_hidden_on_dynamic_routes (rest pathname : string) :
  NavbarProvider ("/dashboard/myBlogs/" ++ rest) = None /\
  NavbarProvider ("/preview/" ++ rest) = None /\
  isDynamicMyBlogRoute pathname =
    startsWith pathname "/dashboard/myBlogs/" || startsWith pathname "/preview/".
Proof.
  split; [|split].
  - unfold NavbarProvider, isDynamicMyBlogRoute, startsWith.
    rewrite prefix_app.
    replace ("/dashboard/myBlogs/" ++ rest =? "/dashboard/myBlogs") with false.
    + cbn [negb andb orb]. rewrite orb_true_r. reflexivity.
    + symmetry. apply String.eqb_neq. intros E.
      apply (f_equal String.length) in E. rewrite length_append in E.
      cbn in E. lia.
  - unfold NavbarProvider, isDynamicMyBlogRoute, startsWith.
    rewrite (prefix_app "/preview/" rest). rewrite !orb_true_r. reflexivity.
  - unfold isDynamicMyBlogRoute.
    destruct (pathname =? "/dashboard/myBlogs") eqn:E; cbn [negb].
    + apply String.eqb_eq in E. subst pathname. reflexivity.
    + rewrite andb_true_r. reflexivity.
Qed.

(** X16: the navigation bar is rendered on every path that starts with none
    of [/dashboard], [/login], [/signup] and [/preview]. *)
Theorem navbar_shown_elsewhere (pathname : string) :
  startsWith pathname "/dashboard" = false ->
  startsWith pathname "/login" = false ->
  startsWith pathname "/signup" = false ->
  startsWith pathname "/preview" = false ->
  NavbarProvider pathname = Some Navbar.
Proof.
  intros Hd Hl Hs Hp. unfold NavbarProvider.
  assert (Hinc : includes hideRoutes pathname = false).
  { unfold includes, hideRoutes. cbn [existsb].
    repeat match goal with
    | |- context [?r =? pathname] =>
        let E := fresh "E" in
        destruct (r =? pathname) eqn:E;
        [apply String.eqb_eq in E; subst pathname; discriminate|]
    end.
    reflexivity. }
  assert (Hdyn : isDynamicMyBlogRoute pathname = false).
  { unfold isDynamicMyBlogRoute, startsWith in *.
    destruct (String.prefix "/dashboard/myBlogs/" pathname) eqn:E1.
    - apply (prefix_app_l "/dashboard" "/myBlogs/") in E1. congruence.
    - destruct (String.prefix "/preview/" pathname) eqn:E2; [|reflexivity].
      apply (prefix_app_l "/preview" "/") in E2. congruence. }
  rewrite Hinc, Hdyn. reflexivity.
Qed.

(** ** Repeating an update *)

Lemma applyPatch_twice (generateSlug : string -> string) (now now' : Z)
      (body : Body) (A : Blog) :
  applyPatch generateSlug now' body (applyPatch generateSlug now body A) =
  applyPatch generateSlug now' body A.
Proof.
  unfold applyPatch. cbn. f_equal.
  - destruct (body_title body) as [t|]; [|reflexivity].
    destruct (t =? ""); reflexivity.
  - destruct (body_content body) as [c|]; [|reflexivity].
    destruct (c =? ""); reflexivity.
  - destruct (body_imageUrl body) as [u|]; [|reflexivity].
    destruct (u =? ""); reflexivity.
  - destruct (body_tags body) as [[|x ts]|]; reflexivity.
Qed.

(** X17: an update is idempotent up to [updatedAt]: when the author sends
    the same patch a second time, the answer and the stored documents are
    those of sending it once at the later time. *)
Theorem update_twice (generateSlug : string -> string) (now now' : Z)
        (slugParam authorId : string) (body : Body) (st : Store) (A : Blog) :
  wellFormed st ->
  slugParam <> "" -> authorId <> "" ->
  findOne slugParam (docs st) = Some A -> author A = authorId ->
  updateBlogController generateSlug now' slugParam (Some authorId) body
    (snd (updateBlogController generateSlug now slugParam (Some authorId) body st)) =
  updateBlogController generateSlug now' slugParam (Some authorId) body st.
Proof.
  intros [Hnd _] Hs Ha Hf Hau.
  rewrite (update_owner generateSlug now slugParam authorId body st A Hs Ha Hf Hau).
  cbn [snd].
  set (A1 := applyPatch generateSlug now body A).
  assert (Hf1 : findOne slugParam (docs (mkStore (save A1 (docs st)) (nextId st)))
                = Some A1).
  { cbn [docs]. apply (findOne_save _ _ A); [exact Hnd | exact Hf | reflexivity | reflexivity]. }
  rewrite (update_owner generateSlug now' slugParam authorId body _ A1 Hs Ha Hf1 Hau).
  rewrite (update_owner generateSlug now' slugParam authorId body st A Hs Ha Hf Hau).
  unfold A1. rewrite applyPatch_twice. cbn [docs nextId].
  f_equal. f_equal. unfold save. rewrite map_map. apply map_ext.
  intros d. cbn.
  destruct (_id d =? _id A)%nat eqn:E; cbn; [rewrite Nat.eqb_refl|rewrite E]; reflexivity.
Qed.

(** ** The two flags under boolean requests *)

Lemma typedStep_complementary (generateSlug : string -> string)
      (st st' : Store) :
  typedStep generateSlug st st' ->
  (forall b, In b (docs st) -> isPublished b = Some (negb (isDraft b))) ->
  forall b, In b (docs st') -> isPublished b = Some (negb (isDraft b)).
Proof.
  intros Hstep Hinv. destruct Hstep as [now user body st Hb
                                       | now slugParam user body st Hb
                                       | slugParam user st].
  - apply create_complementary; assumption.
  - apply update_complementary; assumption.
  - intros b Hin.
    destruct (delete_docs slugParam user st) as [E | [A [_ E]]];
      rewrite E in Hin; [auto|].
    cbn in Hin. apply deleteOne_In in Hin. auto.
Qed.

(** X18: along every run of create, update and delete requests from the
    empty collection in which every [isPublished] sent is a boolean (or the
    field is not sent), every stored article has a boolean [isPublished] and
    [isDraft] is its negation: exactly one of the two flags is true. *)
Theorem boolean_requests_keep_flags_complementary
        (generateSlug : string -> string) (st : Store) :
  typedSteps generateSlug emptyStore st ->
  forall b, In b (docs st) ->
    isPublished b = Some (negb (isDraft b)) /\
    ((isPublished b = Some true /\ isDraft b = false) \/
     (isPublished b = Some false /\ isDraft b = true)).
Proof.
  intros Hr.
  assert (Hinv : forall b, In b (docs st) ->
                           isPublished b = Some (negb (isDraft b))).
  { remember emptyStore as st0 eqn:E0.
    induction Hr as [st | st1 st2 st3 _ IH Hstep]; subst.
    - intros b [].
    - apply (typedStep_complementary generateSlug st2 st3 Hstep).
      apply IH. reflexivity. }
  intros b Hin. specialize (Hinv b Hin). split; [exact Hinv|].
  rewrite Hinv. destruct (isDraft b); cbn; [right | left]; split; reflexivity.
Qed.

(** * The further properties on concrete requests *)

Lemma threeStore_reachable : reachable generateSlugModel threeStore.
Proof.
  eapply steps_next;
    [eapply steps_next; [eapply steps_next; [apply steps_refl|]|]|].
  - exact (step_post generateSlugModel 1000 (Some "u1") (helloBody None)
                     emptyStore).
  - exact (step_post generateSlugModel 2000 (Some "u2") (helloBody None) _).
  - exact (step_post generateSlugModel 3000 (Some "u1") (helloBody None) _).
Defined.

Lemma postBlog_rejects_witness :
  postBlog generateSlugModel 1000 None emptyPatch draftStore =
    (mkResponse 400 Message, draftStore) /\
  postBlog generateSlugModel 1000 None (helloBody None) draftStore =
    (mkResponse 401 Message, draftStore).
Proof.
  split.
  - apply (proj1 (postBlog_rejects generateSlugModel 1000 None emptyPatch
                                   draftStore)).
    left. reflexivity.
  - apply (proj2 (postBlog_rejects generateSlugModel 1000 None (helloBody None)
                                   draftStore)); reflexivity.
Defined.

Lemma postBlog_creates_witness :
  body_title (helloBody None) = Some "Hello World!!" /\
  "Hello World!!" <> "" /\
  body_content (helloBody None) = Some "first words" /\
  "first words" <> "" /\ "u2" <> "" /\
  exists b,
    postBlog generateSlugModel 2000 (Some "u2") (helloBody None) draftStore =
    (mkResponse 201 (OneBlog b),
     mkStore (docs draftStore ++ [b]) (S (nextId draftStore))) /\
    author b = "u2" /\
    forall d, In d (docs draftStore) -> slug d <> slug b.
Proof.
  assert (H1 : body_title (helloBody None) = Some "Hello World!!") by reflexivity.
  assert (H2 : "Hello World!!" <> "") by discriminate.
  assert (H3 : body_content (helloBody None) = Some "first words") by reflexivity.
  assert (H4 : "first words" <> "") by discriminate.
  assert (H5 : "u2" <> "") by discriminate.
  repeat (split; [assumption|]).
  destruct (postBlog_creates generateSlugModel 2000 "u2" "Hello World!!"
                             "first words" (helloBody None) draftStore
                             H1 H2 H3 H4 H5)
    as [b [Hb [_ [_ [_ [_ [Ha [_ [Hfree _]]]]]]]]].
  exists b. split; [exact Hb|]. split; [exact Ha | exact Hfree].
Defined.

Lemma read_after_create_witness :
  fst (postBlog generateSlugModel 1000 (Some "u1") (helloBody (Some false))
                emptyStore) = mkResponse 201 (OneBlog draftBlog) /\
  slug draftBlog <> "" /\
  getSingleBlog sampleUsers (slug draftBlog) draftStore =
    mkSingle 200 (SingleBlog draftBlog (sampleUsers (author draftBlog))).
Proof.
  assert (H1 : fst (postBlog generateSlugModel 1000 (Some "u1")
                             (helloBody (Some false)) emptyStore) =
               mkResponse 201 (OneBlog draftBlog)) by reflexivity.
  assert (H2 : slug draftBlog <> "") by discriminate.
  split; [exact H1|]. split; [exact H2|].
  exact (proj2 (read_after_create generateSlugModel sampleUsers 1000 (Some "u1")
                  (helloBody (Some false)) emptyStore draftBlog H1) H2).
Defined.

Lemma reachable_store_invariants_witness :
  reachable generateSlugModel threeStore /\
  NoDup (map slug (docs threeStore)) /\
  Forall filledIn (docs threeStore).
Proof.
  split; [exact threeStore_reachable|].
  destruct (reachable_store_invariants generateSlugModel threeStore
                                       threeStore_reachable)
    as [Hs [_ [_ Hf]]].
  split; assumption.
Defined.

Lemma identity_is_kept_witness :
  reachable generateSlugModel draftStore /\
  steps generateSlugModel draftStore republishedStore /\
  In draftBlog (docs draftStore) /\
  forall b', In b' (docs republishedStore) -> _id b' = _id draftBlog ->
             slug b' = slug draftBlog /\ author b' = author draftBlog.
Proof.
  split; [exact draftStore_reachable|].
  split; [exact republishedStore_steps|].
  split; [left; reflexivity|].
  intros b' Hb' Hid.
  destruct (identity_is_kept generateSlugModel draftStore republishedStore
              draftBlog b' draftStore_reachable republishedStore_steps
              (or_introl eq_refl) Hb' Hid) as [Hs Ha].
  split; assumption.
Defined.

Lemma slug_is_reused_after_delete_witness :
  wellFormed emptyStore /\
  generateSlugModel "Hello World!!" <> "" /\
  exists b st1 st2 b',
    postBlog generateSlugModel 1000 (Some "u1") (helloBody None) emptyStore =
      (mkResponse 201 (OneBlog b), st1) /\
    slug b = "hello-world" /\
    deleteBlogController (slug b) (Some "u1") st1 = (mkResponse 200 Message, st2) /\
    fst (postBlog generateSlugModel 5000 (Some "u1") (helloBody None) st2) =
      mkResponse 201 (OneBlog b') /\
    slug b' = "hello-world".
Proof.
  assert (Hwf : wellFormed emptyStore) by (split; constructor).
  assert (Hs : generateSlugModel "Hello World!!" <> "") by discriminate.
  split; [exact Hwf|]. split; [exact Hs|].
  destruct (slug_is_reused_after_delete generateSlugModel 1000 5000 "u1"
              "Hello World!!" "first words" (helloBody None) emptyStore Hwf)
    as [b [st1 [st2 [b' [H1 [H2 [H3 [_ [H5 H6]]]]]]]]];
    try reflexivity; try discriminate.
  - intros d [].
  - exists b, st1, st2, b'. repeat split; assumption.
Defined.

Lemma delete_removes_only_target_witness :
  reachable generateSlugModel draftStore /\
  findOne "hello-world" (docs draftStore) = Some draftBlog /\
  exists st',
    deleteBlogController "hello-world" (Some "u1") draftStore =
      (mkResponse 200 Message, st') /\
    getSingleBlog sampleUsers "hello-world" st' = mkSingle 404 SingleMessage /\
    deleteBlogController "hello-world" (Some "u1") st' =
      (mkResponse 404 Message, st').
Proof.
  assert (Hf : findOne "hello-world" (docs draftStore) = Some draftBlog)
    by reflexivity.
  split; [exact draftStore_reachable|]. split; [exact Hf|].
  destruct (delete_removes_only_target generateSlugModel sampleUsers
              "hello-world" "u1" draftStore draftBlog draftStore_reachable)
    as [st' [H1 [_ [_ [_ [_ [H6 H7]]]]]]];
    try reflexivity; try discriminate.
  exists st'. repeat split; assumption.
Defined.

Lemma update_changes_only_target_witness :
  reachable generateSlugModel draftStore /\
  findOne "hello-world" (docs draftStore) = Some draftBlog /\
  exists A' st',
    updateBlogController generateSlugModel 2000 "hello-world" (Some "u1")
                         imageOnly draftStore =
      (mkResponse 200 (OneBlog A'), st') /\
    getSingleBlog sampleUsers "hello-world" st' =
      mkSingle 200 (SingleBlog A' (sampleUsers "u1")).
Proof.
  assert (Hf : findOne "hello-world" (docs draftStore) = Some draftBlog)
    by reflexivity.
  split; [exact draftStore_reachable|]. split; [exact Hf|].
  destruct (update_changes_only_target generateSlugModel sampleUsers 2000
              "hello-world" "u1" imageOnly draftStore draftBlog
              draftStore_reachable)
    as [A' [st' [H1 [_ [_ [_ [_ [_ [_ H8]]]]]]]]];
    try reflexivity; try discriminate.
  exists A', st'. split; assumption.
Defined.

Lemma only_the_author_writes_witness :
  wellFormed draftStore /\ In draftBlog (docs draftStore) /\
  Some "u2" <> Some (author draftBlog) /\
  In draftBlog
     (docs (snd (deleteBlogController "hello-world" (Some "u2") draftStore))) /\
  In draftBlog
     (docs (snd (updateBlogController generateSlugModel 2000 "hello-world"
                                      (Some "u2") imageOnly draftStore))).
Proof.
  assert (Hwf : wellFormed draftStore)
    by exact (reachable_wellFormed generateSlugModel draftStore
                                   draftStore_reachable).
  assert (Hin : In draftBlog (docs draftStore)) by (left; reflexivity).
  assert (Hu : Some "u2" <> Some (author draftBlog)) by discriminate.
  split; [exact Hwf|]. split; [exact Hin|]. split; [exact Hu|].
  destruct (only_the_author_writes generateSlugModel draftStore draftBlog
                                   (Some "u2") Hwf Hin Hu) as [_ [Hupd Hdel]].
  split; [apply Hdel | apply Hupd].
Defined.

Lemma public_read_witness :
  reachable generateSlugModel draftStore /\
  In draftBlog (docs draftStore) /\ isPublished draftBlog = Some false /\
  getSingleBlog sampleUsers (slug draftBlog) draftStore =
    mkSingle 200 (SingleBlog draftBlog (sampleUsers (author draftBlog))) /\
  getSingleBlog sampleUsers "" draftStore = mkSingle 400 SingleMessage.
Proof.
  split; [exact draftStore_reachable|].
  split; [left; reflexivity|]. split; [reflexivity|]. split.
  - apply (proj2 (proj2 (public_read generateSlugModel sampleUsers
                                     "hello-world" draftStore))).
    + exact draftStore_reachable.
    + left. reflexivity.
    + discriminate.
  - apply (proj1 (public_read generateSlugModel sampleUsers "" draftStore)).
    reflexivity.
Defined.

Lemma page_is_bounded_and_advances_witness :
  (1 <= limitOf (Some 1%Z))%Z /\
  getAllBlogs (Some 1%Z) (Some 3000%Z) threeStore =
    mkResponse 200
      (Page [mkItem 1 "Hello World!!" "u2" (Some 2000%Z) "hello-world-1"]
            (Some 2000%Z)) /\
  (2000 < 3000)%Z.
Proof.
  assert (H1 : (1 <= limitOf (Some 1%Z))%Z) by (vm_compute; discriminate).
  assert (H2 : getAllBlogs (Some 1%Z) (Some 3000%Z) threeStore =
               mkResponse 200
                 (Page [mkItem 1 "Hello World!!" "u2" (Some 2000%Z) "hello-world-1"]
                       (Some 2000%Z))) by reflexivity.
  split; [exact H1|]. split; [exact H2|].
  destruct (page_is_bounded_and_advances (Some 1%Z) (Some 3000%Z) threeStore
              200 _ _ H1 H2) as [_ [_ Hnext]].
  destruct (Hnext 2000%Z eq_refl) as [_ [_ [_ Hlt]]].
  exact (Hlt 3000%Z eq_refl).
Defined.

Lemma cursor_chaining_terminates_witness :
  (1 <= 1)%nat /\
  (List.length (filter (cursorQuery None) (docs tieStore)) < 3)%nat /\
  exists pages, paginate 3 (Some 1%Z) None tieStore = Some pages /\
                (List.length pages <= 3)%nat.
Proof.
  assert (H1 : (1 <= 1)%nat) by lia.
  assert (H2 : (List.length (filter (cursorQuery None) (docs tieStore)) < 3)%nat)
    by (vm_compute; lia).
  split; [exact H1|]. split; [exact H2|].
  destruct (cursor_chaining_terminates tieStore 1 3 H1 None H2)
    as [pages [Hp [Hlen _]]].
  exists pages. split; [exact Hp | exact Hlen].
Defined.

Lemma author_listing_sorted_and_complete_witness :
  allBlogsOfUser (Some "u1") threeStore =
    mkResponse 200
      (Blogs [mkItem 2 "Hello World!!" "u1" (Some 3000%Z) "hello-world-2";
              mkItem 0 "Hello World!!" "u1" (Some 1000%Z) "hello-world"]) /\
  StronglySorted itemDescOrder
    [mkItem 2 "Hello World!!" "u1" (Some 3000%Z) "hello-world-2";
     mkItem 0 "Hello World!!" "u1" (Some 1000%Z) "hello-world"].
Proof.
  assert (H : allBlogsOfUser (Some "u1") threeStore =
    mkResponse 200
      (Blogs [mkItem 2 "Hello World!!" "u1" (Some 3000%Z) "hello-world-2";
              mkItem 0 "Hello World!!" "u1" (Some 1000%Z) "hello-world"]))
    by reflexivity.
  split; [exact H|].
  apply (author_listing_sorted_and_complete "u1" threeStore _ H).
Defined.

Lemma new_article_heads_the_feed_witness :
  fst (postBlog generateSlugModel 2000 (Some "u2") (helloBody None) draftStore) =
    mkResponse 201
      (OneBlog (mkBlog 1 "Hello World!!" "first words" None "hello-world-1"
                       "u2" [] (Some true) false (Some 2000%Z) 2000 2000)) /\
  Forall (fun d => earlier 2000 (publishedAt d)) (docs draftStore) /\
  (1 <= limitOf None)%Z /\
  exists rest next,
    getAllBlogs None None
      (snd (postBlog generateSlugModel 2000 (Some "u2") (helloBody None)
                     draftStore)) =
    mkResponse 200
      (Page (mkItem 1 "Hello World!!" "u2" (Some 2000%Z) "hello-world-1" :: rest)
            next).
Proof.
  assert (H1 : fst (postBlog generateSlugModel 2000 (Some "u2") (helloBody None)
                             draftStore) =
    mkResponse 201
      (OneBlog (mkBlog 1 "Hello World!!" "first words" None "hello-world-1"
                       "u2" [] (Some true) false (Some 2000%Z) 2000 2000)))
    by reflexivity.
  assert (H2 : Forall (fun d => earlier 2000 (publishedAt d)) (docs draftStore)).
  { constructor; [exact I | constructor]. }
  assert (H3 : (1 <= limitOf None)%Z) by (vm_compute; discriminate).
  split; [exact H1|]. split; [exact H2|]. split; [exact H3|].
  exact (new_article_heads_the_feed generateSlugModel 2000 (Some "u2")
           (helloBody None) draftStore _ None H1 eq_refl H2 H3).
Defined.

Lemma navbar_shown_elsewhere_witness :
  startsWith "/blog/hello-world" "/dashboard" = false /\
  NavbarProvider "/blog/hello-world" = Some Navbar.
Proof.
  split; [reflexivity|].
  apply navbar_shown_elsewhere; reflexivity.
Defined.

Lemma update_twice_witness :
  wellFormed draftStore /\
  findOne "hello-world" (docs draftStore) = Some draftBlog /\
  updateBlogController generateSlugModel 3000 "hello-world" (Some "u1") imageOnly
    (snd (updateBlogController generateSlugModel 2000 "hello-world" (Some "u1")
                               imageOnly draftStore)) =
  updateBlogController generateSlugModel 3000 "hello-world" (Some "u1") imageOnly
                       draftStore.
Proof.
  assert (Hwf : wellFormed draftStore)
    by exact (reachable_wellFormed generateSlugModel draftStore
                                   draftStore_reachable).
  assert (Hf : findOne "hello-world" (docs draftStore) = Some draftBlog)
    by reflexivity.
  split; [exact Hwf|]. split; [exact Hf|].
  apply (update_twice generateSlugModel 2000 3000 "hello-world" "u1" imageOnly
                      draftStore draftBlog Hwf); try assumption;
    try discriminate; reflexivity.
Defined.

Lemma republishedStore_typed : typedSteps generateSlugModel emptyStore republishedStore.
Proof.
  eapply typed_next; [eapply typed_next; [apply typed_refl|]|].
  - exact (typed_post generateSlugModel 1000 (Some "u1") (helloBody (Some false))
                      emptyStore I).
  - exact (typed_update generateSlugModel 2000 "hello-world" (Some "u1")
                        emptyPatch draftStore I).
Defined.

Lemma boolean_requests_keep_flags_complementary_witness :
  typedSteps generateSlugModel emptyStore republishedStore /\
  forall b, In b (docs republishedStore) ->
    isPublished b = Some (negb (isDraft b)) /\
    ((isPublished b = Some true /\ isDraft b = false) \/
     (isPublished b = Some false /\ isDraft b = true)).
Proof.
  split; [exact republishedStore_typed|].
  exact (boolean_requests_keep_flags_complementary generateSlugModel
           republishedStore republishedStore_typed).
Defined.
